(** * langgraph-deployment-kit: the service layer of [src/service/service.py]

    A shallow embedding of the request handlers of the agent service:
    [_handle_input], [invoke], [message_generator] and the helpers they call
    ([_create_ai_message], [_simplify_node_updates], [_get_message_type],
    [_get_message_content]), followed by the properties of the streaming
    reducer and of the non-streaming facade.

    Python is dynamically typed and the handlers inspect the shape of what
    the execution engine hands them ([isinstance], [len], [.get], indexing),
    so engine data is modelled by a universe [value] of Python values, and
    every operation that can raise in Python returns a [result].  A handler
    that yields frames or calls the engine runs in the monad [Gen], which
    records these effects in order. *)

From Stdlib Require Import String List ZArith Bool Lia Ascii.
Import ListNotations.
Open Scope string_scope.
Open Scope list_scope.
Set Warnings "-register-all".

(** ** Python values *)

(** The message classes of langchain_core that the service distinguishes.
    [AIMessageChunk] is a subclass of [AIMessage]. *)
Inductive lc_class : Type :=
| HumanMessage
| AIMessage
| AIMessageChunk
| ToolMessage
| SystemMessage
| FunctionMessage.

(** Values handed over by the engine or built by the handlers.  Numbers are
    integers; dictionaries keep insertion order and have string keys (node
    names, state keys, JSON object keys).  A message carries its class, its
    content (text, or a list of content parts), and the [name] and
    [tool_call_id] attributes.  [Object cls id] is any other object: an
    instance of class [cls] with identity [id], without length, items or
    JSON form. *)
Inductive value : Type :=
| None_
| Int (z : Z)
| Str (s : string)
| List_ (xs : list value)
| Tuple (xs : list value)
| Dict (kvs : list (string * value))
| Message (cls : lc_class) (body : content)
          (name : option string) (tool_call_id : option string)
| Interrupt (v : value)
| Object (cls : string) (id : nat)
with content : Type :=
| Text (s : string)
| Parts (ps : list value).

(** Exceptions.  All of them are subclasses of Python's [Exception]. *)
Inductive http_detail : Type :=
| reserved_keys (overlap : list string)
| detail_text (s : string).

Inductive exn : Type :=
| KeyError
| IndexError
| TypeError
| AttributeError
| ValueError
| ValidationError
| EngineError (what : string)
| HTTPException (status_code : Z) (detail : http_detail).

Inductive result (A : Type) : Type :=
| Ok (a : A)
| Raise (e : exn).
Arguments Ok {A} a.
Arguments Raise {A} e.

Definition rbind {A B} (r : result A) (k : A -> result B) : result B :=
  match r with
  | Ok a => k a
  | Raise e => Raise e
  end.

Declare Scope result_scope.
Delimit Scope result_scope with res.
Notation "x <- r ;; k" := (rbind r (fun x => k))
  (at level 61, r at next level, right associativity) : result_scope.

Fixpoint rmap {A B} (f : A -> result B) (xs : list A) : result (list B) :=
  match xs with
  | [] => Ok []
  | x :: xs' =>
      (y <- f x ;; ys <- rmap f xs' ;; Ok (y :: ys))%res
  end.

(** *** Built-in operations *)

Definition chars (s : string) : list value :=
  map (fun c => Str (String c EmptyString)) (list_ascii_of_string s).

(** [bool(v)]. *)
Definition truthy (v : value) : bool :=
  match v with
  | None_ => false
  | Int z => negb (Z.eqb z 0)
  | Str s => negb (String.eqb s "")
  | List_ xs | Tuple xs => negb (Nat.eqb (List.length xs) 0)
  | Dict kvs => negb (Nat.eqb (List.length kvs) 0)
  | Message _ _ _ _ | Interrupt _ | Object _ _ => true
  end.

(** [len(v)]: a [TypeError] for a value without [__len__]. *)
Definition len (v : value) : result nat :=
  match v with
  | Str s => Ok (String.length s)
  | List_ xs | Tuple xs => Ok (List.length xs)
  | Dict kvs => Ok (List.length kvs)
  | None_ | Int _ | Message _ _ _ _ | Interrupt _ | Object _ _ => Raise TypeError
  end.

Definition content_value (c : content) : value :=
  match c with
  | Text s => Str s
  | Parts ps => List_ ps
  end.

(** The [type] field of a message of each class. *)
Definition message_type (cls : lc_class) : string :=
  match cls with
  | HumanMessage => "human"
  | AIMessage => "ai"
  | AIMessageChunk => "AIMessageChunk"
  | ToolMessage => "tool"
  | SystemMessage => "system"
  | FunctionMessage => "function"
  end.

Definition optional (o : option string) : value :=
  match o with
  | Some s => Str s
  | None => None_
  end.

(** A message is a pydantic model, and iterating a pydantic model gives its
    fields as (name, value) tuples: these are the tuples the reducer calls
    fragments.  Of the fields of a message the model has [content], [type],
    [name] and, for a tool message, [tool_call_id]. *)
Definition message_fields (cls : lc_class) (body : content)
           (name tool_call_id : option string) : list value :=
  [Tuple [Str "content"; content_value body];
   Tuple [Str "type"; Str (message_type cls)];
   Tuple [Str "name"; optional name]]
  ++ match cls with
     | ToolMessage => [Tuple [Str "tool_call_id"; optional tool_call_id]]
     | _ => []
     end.

(** [iter(v)], as used by [for x in v], comprehensions, unpacking and
    [list.extend]. *)
Definition iter (v : value) : result (list value) :=
  match v with
  | List_ xs | Tuple xs => Ok xs
  | Str s => Ok (chars s)
  | Dict kvs => Ok (map (fun kv => Str (fst kv)) kvs)
  | Message cls body name id => Ok (message_fields cls body name id)
  | None_ | Int _ | Interrupt _ | Object _ _ => Raise TypeError
  end.

Fixpoint lookup (k : string) (kvs : list (string * value)) : option value :=
  match kvs with
  | [] => None
  | (k', v) :: rest => if String.eqb k k' then Some v else lookup k rest
  end.

Definition has_key (k : string) (kvs : list (string * value)) : bool :=
  match lookup k kvs with Some _ => true | None => false end.

(** [d[k] = v] on an insertion-ordered dictionary. *)
Fixpoint setitem (k : string) (v : value) (kvs : list (string * value))
  : list (string * value) :=
  match kvs with
  | [] => [(k, v)]
  | (k', v') :: rest =>
      if String.eqb k k' then (k', v) :: rest else (k', v') :: setitem k v rest
  end.

(** [d.update(other)]. *)
Definition update (d other : list (string * value)) : list (string * value) :=
  fold_left (fun acc kv => setitem (fst kv) (snd kv) acc) other d.

(** [v.get(k, default)]: only dictionaries have the method. *)
Definition get (v : value) (k : string) (default : value) : result value :=
  match v with
  | Dict kvs => Ok (match lookup k kvs with Some x => x | None => default end)
  | _ => Raise AttributeError
  end.

(** [v[k]] for a string key. *)
Definition getitem (v : value) (k : string) : result value :=
  match v with
  | Dict kvs => match lookup k kvs with Some x => Ok x | None => Raise KeyError end
  | _ => Raise TypeError
  end.

(** [v[0]]. *)
Definition first (v : value) : result value :=
  match v with
  | List_ xs | Tuple xs =>
      match xs with x :: _ => Ok x | [] => Raise IndexError end
  | Str s =>
      match chars s with x :: _ => Ok x | [] => Raise IndexError end
  | Dict _ => Raise KeyError
  | None_ | Int _ | Message _ _ _ _ | Interrupt _ | Object _ _ => Raise TypeError
  end.

(** [v[-1]]. *)
Definition last_item (v : value) : result value :=
  match v with
  | List_ xs | Tuple xs =>
      match rev xs with x :: _ => Ok x | [] => Raise IndexError end
  | Str s =>
      match rev (chars s) with x :: _ => Ok x | [] => Raise IndexError end
  | Dict _ => Raise KeyError
  | None_ | Int _ | Message _ _ _ _ | Interrupt _ | Object _ _ => Raise TypeError
  end.

Definition is_str (k : string) (v : value) : bool :=
  match v with Str s => String.eqb s k | _ => false end.

(** [k in v] for a string [k]: key membership in a dictionary, substring
    test in a string, and otherwise membership among the items of the
    iteration. *)
Definition contains (k : string) (v : value) : result bool :=
  match v with
  | Dict kvs => Ok (has_key k kvs)
  | Str s => Ok (match String.index 0 k s with Some _ => true | None => false end)
  | _ => (xs <- iter v ;; Ok (existsb (is_str k) xs))%res
  end.

(** [v.content] and [v.value]. *)
Definition attr_content (v : value) : result value :=
  match v with
  | Message _ c _ _ => Ok (content_value c)
  | _ => Raise AttributeError
  end.

Definition attr_value (v : value) : result value :=
  match v with
  | Interrupt x => Ok x
  | _ => Raise AttributeError
  end.

(** [isinstance(v, AIMessage)] and [isinstance(v, AIMessageChunk)]. *)
Definition isinstance_AIMessage (v : value) : bool :=
  match v with
  | Message AIMessage _ _ _ | Message AIMessageChunk _ _ _ => true
  | _ => false
  end.

Definition isinstance_AIMessageChunk (v : value) : bool :=
  match v with
  | Message AIMessageChunk _ _ _ => true
  | _ => false
  end.


Definition isinstance_tuple (v : value) : bool :=
  match v with
  | Tuple _ => true
  | _ => false
  end.

(** The message constructors validate their [content] field, which is text
    or a list of parts. *)
Definition as_content (v : value) : result content :=
  match v with
  | Str s => Ok (Text s)
  | List_ ps => Ok (Parts ps)
  | _ => Raise ValidationError
  end.

Definition new_AIMessage (content : value) : result value :=
  (c <- as_content content ;; Ok (Message AIMessage c None None))%res.

Definition new_ToolMessage (content : value) (name tool_call_id : string)
  : result value :=
  (c <- as_content content ;;
   Ok (Message ToolMessage c (Some name) (Some tool_call_id)))%res.

Definition class_name (c : lc_class) : string :=
  match c with
  | HumanMessage => "HumanMessage"
  | AIMessage => "AIMessage"
  | AIMessageChunk => "AIMessageChunk"
  | ToolMessage => "ToolMessage"
  | SystemMessage => "SystemMessage"
  | FunctionMessage => "FunctionMessage"
  end.

(** [type(v).__name__]. *)
Definition type_name (v : value) : string :=
  match v with
  | None_ => "NoneType"
  | Int _ => "int"
  | Str _ => "str"
  | List_ _ => "list"
  | Tuple _ => "tuple"
  | Dict _ => "dict"
  | Message c _ _ _ => class_name c
  | Interrupt _ => "Interrupt"
  | Object cls _ => cls
  end.

(** [json.dumps(v)] succeeds: it raises [TypeError] on anything that is not
    built from [None], numbers, strings, lists, tuples and dictionaries. *)
Fixpoint json_serializable (v : value) : bool :=
  match v with
  | None_ | Int _ | Str _ => true
  | List_ xs | Tuple xs => forallb json_serializable xs
  | Dict kvs => forallb (fun kv => json_serializable (snd kv)) kvs
  | Message _ _ _ _ | Interrupt _ | Object _ _ => false
  end.

(** *** The pending-fragment dictionary

    [current_message] of [message_generator] is keyed by whatever the first
    component of a fragment tuple is, so its keys are values.  Storing under
    an unhashable key (a list, a dictionary, a message) raises [TypeError]. *)

Fixpoint hashable (v : value) : bool :=
  match v with
  | None_ | Int _ | Str _ | Object _ _ => true
  | Tuple xs => forallb hashable xs
  | Interrupt x => hashable x
  | List_ _ | Dict _ | Message _ _ _ _ => false
  end.

(** Equality of hashable values, the [==] that dictionary lookup uses. *)
Fixpoint key_eqb (a b : value) : bool :=
  match a, b with
  | None_, None_ => true
  | Int x, Int y => Z.eqb x y
  | Str x, Str y => String.eqb x y
  | Tuple xs, Tuple ys =>
      (fix all2 (xs ys : list value) : bool :=
         match xs, ys with
         | [], [] => true
         | x :: xs', y :: ys' => key_eqb x y && all2 xs' ys'
         | _, _ => false
         end) xs ys
  | Interrupt x, Interrupt y => key_eqb x y
  | Object c i, Object c' i' => String.eqb c c' && Nat.eqb i i'
  | _, _ => false
  end.

Definition parts_dict : Type := list (value * value).

Fixpoint parts_put (k v : value) (d : parts_dict) : parts_dict :=
  match d with
  | [] => [(k, v)]
  | (k', v') :: rest =>
      if key_eqb k k' then (k', v) :: rest else (k', v') :: parts_put k v rest
  end.

(** [d[k] = v]. *)
Definition parts_setitem (k v : value) (d : parts_dict) : result parts_dict :=
  if hashable k then Ok (parts_put k v d) else Raise TypeError.

(** ** Helpers of the service *)

Definition values_serializable (d : list (string * value)) : bool :=
  forallb (fun kv => json_serializable (snd kv)) d.

Definition substring_of (pat s : string) : bool :=
  match String.index 0 pat s with Some _ => true | None => false end.

Definition _get_message_type (message : value) : string :=
  let class_name := type_name message in
  if substring_of "HumanMessage" class_name then "human"
  else if substring_of "AIMessage" class_name then "ai"
  else if substring_of "ToolMessage" class_name
          || substring_of "FunctionMessage" class_name then "tool"
  else class_name.

(** One step of the [for part in content] loop of [_get_message_content]. *)
Definition content_part (part : value) : list value :=
  match part with
  | Dict kvs =>
      match lookup "text" kvs with
      | Some t => [t]
      | None => []
      end
  | Str s => [part]
  | _ => []
  end.

(** [" ".join(parts)]: a [TypeError] unless every part is a string. *)
Fixpoint join_parts (parts : list value) : result (list string) :=
  match parts with
  | [] => Ok []
  | Str s :: rest => (ss <- join_parts rest ;; Ok (s :: ss))%res
  | _ :: _ => Raise TypeError
  end.

Definition _get_message_content (message : value) : string :=
  match message with
  | Message _ (Text s) _ _ => s
  | Message _ (Parts ps) _ _ =>
      match join_parts (flat_map content_part ps) with
      | Ok ss => String.concat " " ss
      | Raise _ => "[Complex content]"
      end
  | _ => "[No content]"
  end.

Definition complex_data (v : value) : value :=
  Str ("[Complex data: " ++ type_name v ++ "]")%string.

Definition simplify_message (msg : value) : value :=
  Dict [("type", Str (_get_message_type msg));
        ("content", Str (_get_message_content msg))].

Definition _simplify_node_updates (updates : value) : list (string * value) :=
  match updates with
  | None_ => []
  | Dict kvs =>
      let result :=
        match lookup "messages" kvs with
        | Some msgs =>
            match iter msgs with
            | Ok ms => [("messages", List_ (map simplify_message ms))]
            | Raise _ =>
                [("messages",
                  Str "[Messages present but could not be serialized]")]
            end
        | None => []
        end in
      fold_left
        (fun result kv =>
           let '(key, v) := kv in
           if String.eqb key "messages" then result
           else if json_serializable v then setitem key v result
           else setitem key (complex_data v) result)
        kvs result
  | _ =>
      if json_serializable updates then [("value", updates)]
      else [("value", complex_data updates)]
  end.

(** ** Schema of the HTTP surface *)

(** Modelled from the spec: the [ChatMessage] model of [schema/schema.py],
    whose source is not at hand (section 3: role, content, optional tool-call
    list, optional originating-run identifier). *)
Module ChatMessage.

Record t : Type := mk {
  type : string;
  content : value;
  tool_calls : list value;
  run_id : option string
}.

(** [chat_message.run_id = str(run_id)]. *)
Definition set_run_id (m : t) (r : string) : t :=
  {| type := type m; content := content m;
     tool_calls := tool_calls m; run_id := Some r |}.

End ChatMessage.

(** Modelled from the spec: the request bodies [UserInput] and [StreamInput]
    of [schema/schema.py] (section 6: message, optional thread id, user id and
    model, optional [agent_config] map; for /stream also [stream_tokens] and
    [stream_node_updates]).  An absent [agent_config] and an empty one are
    the same to the handlers and are both the empty list. *)
Record UserInput : Type := {
  message : string;
  model : option string;
  thread_id : option string;
  user_id : option string;
  agent_config : list (string * value)
}.

Record StreamInput : Type := {
  user :> UserInput;
  stream_tokens : option bool;
  stream_node_updates : option bool
}.

(** ** The execution engine *)

(** The callback handler built by [get_langfuse_callback] from the user and
    the session it is given. *)
Record CallbackHandler : Type := {
  handler_user_id : option string;
  handler_session_id : option string
}.

Record RunnableConfig : Type := {
  configurable : list (string * value);
  run_id : string;
  callbacks : option (list CallbackHandler)
}.

(** The engine input: [Command(resume=message)] or
    [{"messages": [HumanMessage(content=message)]}]. *)
Inductive agent_input : Type :=
| Command_resume (resume : string)
| fresh_messages (human : string).

Record kwargs : Type := {
  input : agent_input;
  config : RunnableConfig
}.

(** A task of the state snapshot; [interrupts] is [None] when the task has no
    such attribute. *)
Record task : Type := {
  interrupts : option value
}.

(** What [agent.astream] produces, event by event; the engine may raise
    instead of producing the next event. *)
Inductive engine_stream : Type :=
| exhausted
| raises (e : exn)
| item (stream_event : value) (rest : engine_stream).

(** A compiled graph, seen through the three calls the service makes. *)
Record Pregel : Type := {
  aget_state : RunnableConfig -> result (list task);
  ainvoke : kwargs -> result value;
  astream : kwargs -> engine_stream
}.

Inductive engine_call : Type :=
| call_aget_state (c : RunnableConfig)
| call_ainvoke (k : kwargs)
| call_astream (k : kwargs).

(** ** Frames and effects *)

(** The [content] of a data frame. *)
Inductive payload : Type :=
| update_info (node : string) (has_updates : bool)
              (updates : list (string * value)) (run_id : string)
| update_error (node : string) (has_updates : bool)
               (error : string) (run_id : string)
| model_dump (m : ChatMessage.t)
| plain (s : string).

(** A line of the event stream: [data: {"type": ..., "content": ...}] or the
    sentinel [data: [DONE]]. *)
Inductive frame : Type :=
| Data (type : string) (content : payload)
| DONE.

(** The text of a frame, given the text [dumps type content] that
    [json.dumps] produces for the dictionary of a data frame. *)
Definition frame_text (dumps : string -> payload -> string) (f : frame)
  : string :=
  let end_of_event := String (ascii_of_nat 10) (String (ascii_of_nat 10) "") in
  match f with
  | Data type content => ("data: " ++ dumps type content ++ end_of_event)%string
  | DONE => ("data: [DONE]" ++ end_of_event)%string
  end.

Inductive effect : Type :=
| called (c : engine_call)
| yielded (f : frame).

(** A computation that calls the engine and yields frames, and then returns
    or raises. *)
Definition Gen (A : Type) : Type := (list effect * result A)%type.

Definition ret {A} (a : A) : Gen A := ([], Ok a).

Definition raise {A} (e : exn) : Gen A := ([], Raise e).

Definition lift {A} (r : result A) : Gen A := ([], r).

Definition bind {A B} (m : Gen A) (k : A -> Gen B) : Gen B :=
  match m with
  | (t, Ok a) => let (t', r) := k a in (t ++ t', r)
  | (t, Raise e) => (t, Raise e)
  end.

Definition yield (f : frame) : Gen unit := ([yielded f], Ok tt).

(** An awaited engine call and its outcome. *)
Definition await {A} (c : engine_call) (r : result A) : Gen A := ([called c], r).

(** [try: body except Exception as e: handler e]. *)
Definition try_except {A} (body : Gen A) (handler : exn -> Gen A) : Gen A :=
  match body with
  | (t, Ok a) => (t, Ok a)
  | (t, Raise e) => let (t', r) := handler e in (t ++ t', r)
  end.

(** [try: body finally: cleanup]. *)
Definition try_finally {A} (body : Gen A) (cleanup : Gen unit) : Gen A :=
  let (t, r) := body in
  match cleanup with
  | (t', Ok _) => (t ++ t', r)
  | (t', Raise e) => (t ++ t', Raise e)
  end.

Declare Scope gen_scope.
Delimit Scope gen_scope with gen.
Notation "x <- m ;; k" := (bind m (fun x => k))
  (at level 61, m at next level, right associativity) : gen_scope.
Notation "' pat <- m ;; k" := (bind m (fun x => match x with pat => k end))
  (at level 61, pat pattern, m at next level, right associativity) : gen_scope.
Notation "m ;;; k" := (bind m (fun _ => k))
  (at level 61, right associativity) : gen_scope.

(** [for x in xs: body x]. *)
Fixpoint for_each {A} (xs : list A) (body : A -> Gen unit) : Gen unit :=
  match xs with
  | [] => ret tt
  | x :: rest => (body x ;;; for_each rest body)%gen
  end.

(** [async for stream_event in stream: body stream_event]. *)
Fixpoint async_for (stream : engine_stream) (body : value -> Gen unit) : Gen unit :=
  match stream with
  | exhausted => ret tt
  | raises e => raise e
  | item stream_event rest => (body stream_event ;;; async_for rest body)%gen
  end.

(** The frames and the engine calls of a trace of effects, in order. *)
Definition trace_frames (t : list effect) : list frame :=
  flat_map (fun e => match e with yielded f => [f] | called _ => [] end) t.

Definition trace_calls (t : list effect) : list engine_call :=
  flat_map (fun e => match e with called c => [c] | yielded _ => [] end) t.

Definition frames {A} (g : Gen A) : list frame := trace_frames (fst g).

Definition engine_calls {A} (g : Gen A) : list engine_call :=
  trace_calls (fst g).

(** Every frame a computation yields satisfies [P]. *)
Definition yields_only {A} (P : frame -> Prop) (g : Gen A) : Prop :=
  Forall P (frames g).

Definition outcome {A} (g : Gen A) : result A := snd g.

(** [a, b = v]. *)
Definition unpack2 (v : value) : result (value * value) :=
  match iter v with
  | Ok [a; b] => Ok (a, b)
  | Ok _ => Raise ValueError
  | Raise e => Raise e
  end.

(** [v.items()]. *)
Definition items (v : value) : result (list (string * value)) :=
  match v with
  | Dict kvs => Ok kvs
  | _ => Raise AttributeError
  end.

(** Truth value of an optional string and of an optional flag. *)
Definition some_text (o : option string) : bool :=
  match o with
  | Some s => negb (String.eqb s "")
  | None => false
  end.

Definition flag (o : option bool) : bool :=
  match o with
  | Some b => b
  | None => false
  end.

Definition is_not_False (o : option bool) : bool :=
  match o with
  | Some false => false
  | _ => true
  end.

Definition nonempty {A} (xs : list A) : bool :=
  match xs with
  | [] => false
  | _ :: _ => true
  end.

(** ** What the service imports *)

(** The source of [service/utils.py] is not at hand: its three functions
    are parameters of the development.  Each may raise. *)
Class ServiceUtils : Type := {
  langchain_to_chat_message : value -> result ChatMessage.t;
  remove_tool_calls : value -> result value;
  convert_message_content_to_string : value -> result string
}.

(** What a request finds around it: the agent registry of
    [agents/agents.py], the identifiers the two [uuid4()] calls of
    [_handle_input] return, whether Langfuse credentials are configured, and
    [set(inspect.signature(AIMessage).parameters)], the keyword names the
    message constructor of the installed langchain_core accepts. *)
Class Runtime : Type := {
  agents : list (string * Pregel);
  uuid4_run : string;
  uuid4_thread : string;
  langfuse_credentials : bool;
  AIMessage_parameters : list string
}.

Definition DEFAULT_AGENT : string := "research-assistant".

Section Service.

Context {utils : ServiceUtils} {runtime : Runtime}.

Fixpoint find_agent (agent_id : string) (registry : list (string * Pregel))
  : result Pregel :=
  match registry with
  | [] => Raise KeyError
  | (k, graph) :: rest =>
      if String.eqb agent_id k then Ok graph else find_agent agent_id rest
  end.

(** [agents[agent_id].graph]. *)
Definition get_agent (agent_id : string) : result Pregel :=
  find_agent agent_id agents.

(** [core/telemetry.py]: a handler when credentials are configured and the
    handler can be built ([langfuse_credentials]), carrying the user and the
    session only when they are non-empty; [None] otherwise. *)
Definition get_langfuse_callback (user_id : option string) (session_id : string)
  : option CallbackHandler :=
  if langfuse_credentials then
    Some {| handler_user_id := if some_text user_id then user_id else None;
            handler_session_id :=
              if some_text (Some session_id) then Some session_id else None |}
  else None.

Definition in_valid_keys (k : value) : bool :=
  match k with
  | Str s => existsb (String.eqb s) AIMessage_parameters
  | _ => false
  end.

Fixpoint parts_find (k : string) (d : parts_dict) : option value :=
  match d with
  | [] => None
  | (k', v) :: rest => if is_str k k' then Some v else parts_find k rest
  end.

(** The constructor call on the filtered keyword arguments: [content] is
    required, [type] can only be "ai", [name] is text or [None]; the other
    keyword arguments are not part of the model of a message. *)
Definition AIMessage_from_kwargs (filtered : parts_dict) : result value :=
  match parts_find "content" filtered with
  | None => Raise TypeError
  | Some c =>
      (body <- as_content c ;;
       _ <- match parts_find "type" filtered with
            | None => Ok tt
            | Some t => if is_str "ai" t then Ok tt else Raise ValidationError
            end ;;
       match parts_find "name" filtered with
       | None | Some None_ => Ok (Message AIMessage body None None)
       | Some (Str n) => Ok (Message AIMessage body (Some n) None)
       | Some _ => Raise ValidationError
       end)%res
  end.

Definition _create_ai_message (parts : parts_dict) : result value :=
  let filtered := filter (fun kv => in_valid_keys (fst kv)) parts in
  AIMessage_from_kwargs filtered.

(** *** [_handle_input] *)

Definition keys (d : list (string * value)) : list string := map fst d.

Definition interrupted (t : task) : bool :=
  match interrupts t with
  | Some v => truthy v
  | None => false
  end.

Definition _handle_input (user_input : UserInput) (agent : Pregel)
  : Gen (kwargs * string) :=
  let run_id := uuid4_run in
  let thread_id :=
    match thread_id user_input with
    | Some t => if String.eqb t "" then uuid4_thread else t
    | None => uuid4_thread
    end in
  let user_id := user_id user_input in
  let configurable := [("thread_id", Str thread_id)] in
  let configurable :=
    match model user_input with
    | Some m => if String.eqb m "" then configurable
                else setitem "model" (Str m) configurable
    | None => configurable
    end in
  let configurable :=
    match user_id with
    | Some u => if String.eqb u "" then configurable
                else setitem "user_id" (Str u) configurable
    | None => configurable
    end in
  (configurable <-
     (if nonempty (agent_config user_input) then
        let overlap :=
          filter (fun k => has_key k (agent_config user_input))
                 (keys configurable) in
        if nonempty overlap then
          raise (HTTPException 422 (reserved_keys overlap))
        else ret (update configurable (agent_config user_input))
      else ret configurable) ;;
   let langfuse_handler := get_langfuse_callback user_id thread_id in
   let config :=
     {| configurable := configurable;
        run_id := run_id;
        callbacks := match langfuse_handler with
                     | Some h => Some [h]
                     | None => None
                     end |} in
   tasks <- await (call_aget_state config) (aget_state agent config) ;;
   let interrupted_tasks := filter interrupted tasks in
   let input :=
     if nonempty interrupted_tasks
     then Command_resume (message user_input)
     else fresh_messages (message user_input) in
   ret ({| input := input; config := config |}, run_id))%gen.

(** *** [invoke] *)

Definition unexpected_error : exn :=
  HTTPException 500 (detail_text "Unexpected error").

Definition extract_output (response_events : value) : result ChatMessage.t :=
  (ev <- last_item response_events ;;
   p <- unpack2 ev ;;
   let '(response_type, response) := p in
   if is_str "values" response_type then
     msgs <- getitem response "messages" ;;
     m <- last_item msgs ;;
     langchain_to_chat_message m
   else if is_str "updates" response_type then
     marked <- contains "__interrupt__" response ;;
     if (marked : bool) then
       its <- getitem response "__interrupt__" ;;
       it <- first its ;;
       v <- attr_value it ;;
       m <- new_AIMessage v ;;
       langchain_to_chat_message m
     else Raise ValueError
   else Raise ValueError)%res.

Definition invoke (user_input : UserInput) (agent_id : string)
  : Gen ChatMessage.t :=
  (agent <- lift (get_agent agent_id) ;;
   ' (kwargs, run_id) <- _handle_input user_input agent ;;
   try_except
     (response_events <- await (call_ainvoke kwargs) (ainvoke agent kwargs) ;;
      output <- lift (extract_output response_events) ;;
      ret (ChatMessage.set_run_id output run_id))
     (fun e => raise unexpected_error))%gen.


(** *** [message_generator] *)

(** [updates is not None and len(updates) > 0]. *)
Definition has_updates_of (updates : value) : result bool :=
  match updates with
  | None_ => Ok false
  | _ => (n <- len updates ;; Ok (Nat.ltb 0 n))%res
  end.

Definition dumps_node_update (c : payload) (serializable : bool) : Gen unit :=
  if serializable then yield (Data "node_update" c) else raise TypeError.

(** The body of the first loop over [event.items()]: the diagnostic frame of
    one node, and the fallback frame when building it raised. *)
Definition node_update_frame (run_id : string) (entry : string * value)
  : Gen unit :=
  let '(node, updates) := entry in
  try_except
    (has <- lift (has_updates_of updates) ;;
     let simplified := _simplify_node_updates updates in
     dumps_node_update (update_info node has simplified run_id)
                       (json_serializable (Dict simplified)))%gen
    (fun e =>
       has <- lift (has_updates_of updates) ;;
       yield (Data "node_update"
                (update_error node has "Could not serialize node updates"
                              run_id)))%gen.

Definition sub_agent (node : string) : bool :=
  String.eqb node "research_expert" || String.eqb node "math_expert".

(** [for interrupt in updates: new_messages.append(AIMessage(...))]. *)
Definition interrupt_messages (updates : value) : result (list value) :=
  (its <- iter updates ;;
   rmap (fun interrupt => v <- attr_value interrupt ;; new_AIMessage v) its)%res.

(** The special case of the supervisor node. *)
Definition supervisor_case (update_messages : value) : result value :=
  (ms <- iter update_messages ;;
   let ai_messages := filter isinstance_AIMessage ms in
   match rev ai_messages with
   | [] => Ok update_messages
   | last_ai :: _ => Ok (List_ [last_ai])
   end)%res.

(** The special case of the sub-agent nodes. *)
Definition sub_agent_case (node : string) (update_messages : value)
  : result value :=
  (m0 <- first update_messages ;;
   c <- attr_content m0 ;;
   msg <- new_ToolMessage c node "" ;;
   Ok (List_ [msg]))%res.

(** The body of the second loop over [event.items()]: what one node adds to
    [new_messages]. *)
Definition node_messages (entry : string * value) : result (list value) :=
  let '(node, updates) := entry in
  if String.eqb node "__interrupt__" then interrupt_messages updates
  else
    (let updates := if truthy updates then updates else Dict [] in
     update_messages <- get updates "messages" (List_ []) ;;
     update_messages <-
       (if String.eqb node "supervisor" then supervisor_case update_messages
        else Ok update_messages) ;;
     update_messages <-
       (if sub_agent node then sub_agent_case node update_messages
        else Ok update_messages) ;;
     iter update_messages)%res.

Fixpoint collect_messages (entries : list (string * value))
  : result (list value) :=
  match entries with
  | [] => Ok []
  | entry :: rest =>
      (ms <- node_messages entry ;;
       more <- collect_messages rest ;;
       Ok (ms ++ more))%res
  end.

(** The loop that splits [new_messages] into fragments and complete
    messages, from the state ([processed_messages], [current_message]). *)
Fixpoint assemble_loop (new_messages : list value)
         (processed_messages : list value) (current_message : parts_dict)
  : result (list value * parts_dict) :=
  match new_messages with
  | [] => Ok (processed_messages, current_message)
  | message :: rest =>
      if isinstance_tuple message then
        (p <- unpack2 message ;;
         let '(key, v) := p in
         current_message <- parts_setitem key v current_message ;;
         assemble_loop rest processed_messages current_message)%res
      else if nonempty current_message then
        (synthesized <- _create_ai_message current_message ;;
         assemble_loop rest (processed_messages ++ [synthesized] ++ [message])
                       [])%res
      else assemble_loop rest (processed_messages ++ [message]) current_message
  end.

Definition assemble (new_messages : list value) : result (list value) :=
  (st <- assemble_loop new_messages [] [] ;;
   let '(processed_messages, current_message) := st in
   if nonempty current_message then
     synthesized <- _create_ai_message current_message ;;
     Ok (processed_messages ++ [synthesized])
   else Ok processed_messages)%res.

(** The body of the loop over [processed_messages].  The dump of a
    ChatMessage is a validated pydantic model and is taken to be
    serializable. *)
Definition emit_message (user_input : StreamInput) (run_id : string)
           (msg : value) : Gen unit :=
  match langchain_to_chat_message msg with
  | Raise _ => yield (Data "error" (plain "Unexpected error"))
  | Ok chat_message =>
      let chat_message := ChatMessage.set_run_id chat_message run_id in
      if String.eqb (ChatMessage.type chat_message) "human"
         && is_str (message user_input) (ChatMessage.content chat_message)
      then ret tt
      else yield (Data "message" (model_dump chat_message))
  end.

(** The token part of the loop body, for a "messages" event. *)
Definition emit_token (user_input : StreamInput) (event : value) : Gen unit :=
  if negb (flag (stream_tokens user_input)) then ret tt
  else
    (p <- lift (unpack2 event) ;;
     let '(msg, metadata) := p in
     tags <- lift (get metadata "tags" (List_ [])) ;;
     skip <- lift (contains "skip_stream" tags) ;;
     if (skip : bool) then ret tt
     else if negb (isinstance_AIMessageChunk msg) then ret tt
     else
       c <- lift (attr_content msg) ;;
       content <- lift (remove_tool_calls c) ;;
       if truthy content then
         s <- lift (convert_message_content_to_string content) ;;
         yield (Data "token" (plain s))
       else ret tt)%gen.

(** The body of the [async for] loop. *)
Definition handle_event (user_input : StreamInput) (run_id : string)
           (stream_event : value) : Gen unit :=
  if negb (isinstance_tuple stream_event) then ret tt
  else
    (p <- lift (unpack2 stream_event) ;;
     let '(stream_mode, event) := p in
     new_messages <-
       (if is_str "updates" stream_mode then
          (if is_not_False (stream_node_updates user_input) then
             entries <- lift (items event) ;;
             for_each entries (node_update_frame run_id)
           else ret tt) ;;;
          entries <- lift (items event) ;;
          lift (collect_messages entries)
        else ret []) ;;
     let new_messages :=
       if is_str "custom" stream_mode then [event] else new_messages in
     processed_messages <- lift (assemble new_messages) ;;
     for_each processed_messages (emit_message user_input run_id) ;;;
     if is_str "messages" stream_mode then emit_token user_input event
     else ret tt)%gen.

Definition internal_server_error : frame :=
  Data "error" (plain "Internal server error").

(** The body of the [try] block. *)
Definition event_loop (user_input : StreamInput) (agent : Pregel)
           (kwargs : kwargs) (run_id : string) : Gen unit :=
  (await (call_astream kwargs) (Ok tt) ;;;
   async_for (astream agent kwargs) (handle_event user_input run_id))%gen.

Definition message_generator (user_input : StreamInput) (agent_id : string)
  : Gen unit :=
  (agent <- lift (get_agent agent_id) ;;
   p <- _handle_input user_input agent ;;
   let '(kwargs, run_id) := p in
   try_finally
     (try_except
        (event_loop user_input agent kwargs run_id)
        (fun e => yield internal_server_error))
     (yield DONE))%gen.

(** ** Specification-level definitions *)

(** The candidate list cut into maximal runs of consecutive fragments and
    single complete messages, in order. *)
Inductive segment : Type :=
| fragment_run (fragments : list value)
| complete (m : value).

Fixpoint segments (new_messages : list value) : list segment :=
  match new_messages with
  | [] => []
  | m :: rest =>
      if isinstance_tuple m then
        match segments rest with
        | fragment_run fs :: segs => fragment_run (m :: fs) :: segs
        | segs => fragment_run [m] :: segs
        end
      else complete m :: segments rest
  end.

(** The pending map of a run: its fragments stored in order into [pending]. *)
Fixpoint accumulate (pending : parts_dict) (fragments : list value)
  : result parts_dict :=
  match fragments with
  | [] => Ok pending
  | f :: rest =>
      (p <- unpack2 f ;;
       let '(key, v) := p in
       pending <- parts_setitem key v pending ;;
       accumulate pending rest)%res
  end.

(** A run is flushed into one synthesized message; a complete message stands
    for itself. *)
Definition flush (seg : segment) : result value :=
  match seg with
  | fragment_run fs => (d <- accumulate [] fs ;; _create_ai_message d)%res
  | complete m => Ok m
  end.

Definition assemble_by_runs (new_messages : list value) : result (list value) :=
  rmap flush (segments new_messages).

(** [m] is what segment [seg] leaves in [processed_messages]. *)
Definition flushed_as (seg : segment) (m : value) : Prop :=
  match seg with
  | complete c => m = c
  | fragment_run fs =>
      exists d, accumulate [] fs = Ok d
                /\ nonempty d = true
                /\ _create_ai_message d = Ok m
  end.

(** The end of [assemble]: the flush of what is still pending. *)
Definition final_flush (st : result (list value * parts_dict))
  : result (list value) :=
  (st <- st ;;
   let '(processed_messages, current_message) := st in
   if nonempty current_message then
     synthesized <- _create_ai_message current_message ;;
     Ok (processed_messages ++ [synthesized])
   else Ok processed_messages)%res.



(** The update message list of a node: [(updates or {}).get("messages", [])]. *)
Definition update_messages_of (updates : value) : result value :=
  get (if truthy updates then updates else Dict []) "messages" (List_ []).

End Service.

(** The reserved keys a request has put into [configurable] by the time
    [agent_config] is checked: the thread id always, the model and the user
    id when the request carries a non-empty one. *)
Definition present_keys (user_input : UserInput) : list string :=
  "thread_id"
  :: (if some_text (model user_input) then ["model"] else [])
  ++ (if some_text (user_id user_input) then ["user_id"] else []).

(** A stream that produces the events of [evs] and then goes on as [s]. *)
Fixpoint prepend (evs : list value) (s : engine_stream) : engine_stream :=
  match evs with
  | [] => s
  | ev :: rest => item ev (prepend rest s)
  end.

(** Frames by kind. *)
Definition is_node_update (f : frame) : Prop :=
  match f with
  | Data "node_update" _ => True
  | _ => False
  end.

Definition is_message_frame (f : frame) : bool :=
  match f with
  | Data "message" _ => true
  | _ => false
  end.

(** The [message] frames among [fs], in order. *)
Definition message_frames (fs : list frame) : list frame :=
  filter is_message_frame fs.

(** A [message] frame that echoes the input of the request. *)
Definition echoes (user_input : StreamInput) (f : frame) : bool :=
  match f with
  | Data "message" (model_dump m) =>
      String.eqb (ChatMessage.type m) "human"
      && is_str (message user_input) (ChatMessage.content m)
  | _ => false
  end.

(** The stream ends with the sentinel and has no other sentinel. *)
Definition ends_with_one_DONE (fs : list frame) : Prop :=
  exists body, fs = body ++ [DONE] /\ ~ In DONE body.

(** ** A reference instance and sample requests *)

(** Modelled from the spec: the role a message class is shown with
    (section 3: human, ai, tool, system). *)
Definition role_of (cls : lc_class) : option string :=
  match cls with
  | HumanMessage => Some "human"
  | AIMessage | AIMessageChunk => Some "ai"
  | ToolMessage => Some "tool"
  | SystemMessage => Some "system"
  | FunctionMessage => None
  end.

(** Modelled from the spec: [langchain_to_chat_message] of
    [service/utils.py], whose source is not at hand.  A complete message
    becomes a ChatMessage of the role of its class with the same content
    (sections 3, 4.2 and 8); a value that is no message of these roles cannot
    be converted. *)
Definition to_chat_message (m : value) : result ChatMessage.t :=
  match m with
  | Message cls c _ _ =>
      match role_of cls with
      | Some r =>
          Ok {| ChatMessage.type := r;
                ChatMessage.content := content_value c;
                ChatMessage.tool_calls := [];
                ChatMessage.run_id := None |}
      | None => Raise ValueError
      end
  | _ => Raise ValueError
  end.

Definition is_tool_use (part : value) : bool :=
  match part with
  | Dict kvs =>
      match lookup "type" kvs with
      | Some t => is_str "tool_use" t
      | None => false
      end
  | _ => false
  end.

(** Modelled from the spec: [remove_tool_calls] of [service/utils.py]
    (section 4.2: tool-call-only chunks are normalized to empty content).
    Text is kept; of a list of parts the tool-call parts are dropped. *)
Definition drop_tool_calls (c : value) : result value :=
  match c with
  | Str s => Ok c
  | List_ ps => Ok (List_ (filter (fun part => negb (is_tool_use part)) ps))
  | _ => Raise TypeError
  end.

(** Modelled from the spec: [convert_message_content_to_string] of
    [service/utils.py] (section 4.2: non-empty text is framed as a token).
    Text is itself; the text parts of a list are concatenated. *)
Definition content_to_string (c : value) : result string :=
  match c with
  | Str s => Ok s
  | List_ ps =>
      match join_parts (flat_map content_part ps) with
      | Ok ss => Ok (String.concat "" ss)
      | Raise e => Raise e
      end
  | _ => Raise TypeError
  end.

Definition reference_utils : ServiceUtils :=
  {| langchain_to_chat_message := to_chat_message;
     remove_tool_calls := drop_tool_calls;
     convert_message_content_to_string := content_to_string |}.

(** An engine double in the manner of [tests/service/conftest.py]: no pending
    task, a fixed result of [ainvoke], a fixed stream. *)
Definition mock_agent (invoked : result value) (stream : engine_stream)
  : Pregel :=
  {| aget_state := fun _ => Ok [];
     ainvoke := fun _ => invoked;
     astream := fun _ => stream |}.

Definition mock_runtime (agent : Pregel) : Runtime :=
  {| agents := [(DEFAULT_AGENT, agent)];
     uuid4_run := "847c6285-8fc9-4560-a83f-4e6285809254";
     uuid4_thread := "7bcc7cc1-99d7-4b1d-bdb5-e6f90ed44de6";
     langfuse_credentials := false;
     AIMessage_parameters := ["content"; "kwargs"] |}.

Definition sample_runtime (stream : engine_stream) : Runtime :=
  mock_runtime
    (mock_agent
       (Ok (List_ [Tuple [Str "values";
                          Dict [("messages",
                                 List_ [Message AIMessage (Text "Test response")
                                                None None])]]]))
       stream).

Definition QUESTION : string := "What is the weather in Tokyo?".
Definition ANSWER : string := "The weather in Tokyo is 70 degrees.".

Definition ai (s : string) : value := Message AIMessage (Text s) None None.
Definition human (s : string) : value := Message HumanMessage (Text s) None None.

Definition ask (config : list (string * value)) : UserInput :=
  {| message := QUESTION; model := None; thread_id := None; user_id := None;
     agent_config := config |}.

Definition ask_stream (node_updates : option bool) : StreamInput :=
  {| user := ask []; stream_tokens := Some true;
     stream_node_updates := node_updates |}.

(** [test_invoke]: the run ends with a "values" event. *)
Definition values_run : value :=
  List_ [Tuple [Str "values"; Dict [("messages", List_ [ai ANSWER])]]].


(** [test_invoke_custom_agent_config]: the reserved key of the test. *)
Definition INVALID_CONFIG : list (string * value) := [("model", Str "gpt-4o")].

Definition updates_event (entries : list (string * value)) : value :=
  Tuple [Str "updates"; Dict entries].

Definition final_answer : value :=
  updates_event [("chat_model", Dict [("messages", List_ [ai ANSWER])])].

(** A stream whose first node update is a value without length. *)
Definition unsized_stream : engine_stream :=
  item (updates_event [("planner", Int 0)]) (item final_answer exhausted).

(** A stream whose first event comes from a sub-agent without messages. *)
Definition silent_expert_stream : engine_stream :=
  item (updates_event [("math_expert", Dict [])]) (item final_answer exhausted).

(** A node that returns its message bare, not in a list: extending
    [new_messages] with it iterates its fields, and the reducer rebuilds the
    message from these fragments. *)
Definition bare_message_event : value :=
  updates_event [("chat_model", Dict [("messages", ai "Let me check.")])].

Definition supervisor_event : value :=
  updates_event
    [("supervisor",
      Dict [("messages", List_ [human QUESTION; ai "first"; ai "second"])])].

Definition expert_event : value :=
  updates_event
    [("research_expert", Dict [("messages", List_ [ai "found it"])])].

(** Two fragments, two complete messages, one trailing fragment. *)
Definition sample_candidates : list value :=
  [Tuple [Str "content"; Str "The weather"];
   Tuple [Str "content"; Str "The weather in Tokyo"];
   ai "first"; ai "second";
   Tuple [Str "content"; Str "is sunny."]].

Definition sample_stream : engine_stream :=
  item bare_message_event
       (item supervisor_event (item expert_event (item final_answer exhausted))).

(** ** The configurable dictionary of a request *)

Section Configurable.

Context {runtime : Runtime}.

(** The thread id [_handle_input] settles on: the one of the request when it
    is not empty, a fresh one otherwise. *)
Definition resolved_thread_id (user_input : UserInput) : string :=
  match thread_id user_input with
  | Some t => if String.eqb t "" then uuid4_thread else t
  | None => uuid4_thread
  end.

(** [configurable] as [_handle_input] has built it when it turns to
    [agent_config]. *)
Definition base_configurable (user_input : UserInput)
  : list (string * value) :=
  let configurable := [("thread_id", Str (resolved_thread_id user_input))] in
  let configurable :=
    match model user_input with
    | Some m => if String.eqb m "" then configurable
                else setitem "model" (Str m) configurable
    | None => configurable
    end in
  match user_id user_input with
  | Some u => if String.eqb u "" then configurable
              else setitem "user_id" (Str u) configurable
  | None => configurable
  end.

End Configurable.

(** ** Frames and events by kind *)

Definition is_token_frame (f : frame) : bool :=
  match f with
  | Data "token" _ => true
  | _ => false
  end.

(** A frame that has a run id has the run id [r]. *)
Definition carries_run_id (r : string) (f : frame) : Prop :=
  match f with
  | Data _ (update_info _ _ _ r') | Data _ (update_error _ _ _ r') => r' = r
  | Data _ (model_dump m) => ChatMessage.run_id m = Some r
  | Data _ (plain _) | DONE => True
  end.

(** A stream event that is no tuple, or a pair whose mode is none of
    "updates", "custom" and "messages". *)
Definition ignored_event (stream_event : value) : bool :=
  match stream_event with
  | Tuple [stream_mode; _] =>
      negb (is_str "updates" stream_mode)
      && negb (is_str "custom" stream_mode)
      && negb (is_str "messages" stream_mode)
  | Tuple _ => false
  | _ => true
  end.

(** A node without special case in the reducer. *)
Definition plain_node (node : string) : bool :=
  negb (String.eqb node "__interrupt__")
  && negb (String.eqb node "supervisor")
  && negb (sub_agent node).

(** ** Fragments by kind *)

Section Fragments.

Context {runtime : Runtime}.



End Fragments.

(** ** The other endpoints *)

(** *** Authentication *)

(** The fields of [core/settings.py] the service reads; a [SecretStr] stands
    here as the text it holds, which is what its truth value and
    [get_secret_value] depend on. *)
Class Settings : Type := {
  AUTH_SECRET : option string;
  LANGFUSE_PUBLIC_KEY : option string;
  LANGFUSE_SECRET_KEY : option string;
  LANGFUSE_HOST : option string
}.

(** [os.environ.get]. *)
Class Environ : Type := {
  environ_get : string -> option string
}.

(** What [HTTPBearer(auto_error=False)] hands to the dependency: [None], or
    the scheme and the credentials of the Authorization header. *)
Record HTTPAuthorizationCredentials : Type := {
  scheme : string;
  credentials : string
}.

(** The 401 of [verify_bearer]; it also carries the header
    [WWW-Authenticate: Bearer], which the exception of this development has
    no field for. *)
Definition unauthorized : exn :=
  HTTPException 401 (detail_text "Invalid or missing API key").

Definition verify_bearer {settings : Settings}
           (http_auth : option HTTPAuthorizationCredentials) : result unit :=
  if negb (some_text AUTH_SECRET) then Ok tt
  else
    let auth_secret := match AUTH_SECRET with Some s => s | None => "" end in
    match http_auth with
    | None => Raise unauthorized
    | Some auth =>
        if negb (String.eqb (credentials auth) auth_secret)
        then Raise unauthorized
        else Ok tt
    end.

(** *** The agent registry of [agents/agents.py] *)

Record Agent : Type := {
  description : string;
  graph : Pregel
}.

(** Modelled from the spec: [AgentInfo] of [schema/schema.py], whose source
    is not at hand (section 6: /info lists the available agents). *)
Record AgentInfo : Type := {
  key : string;
  info_description : string
}.

(** [get_all_agent_info] over the dictionary [agents]. *)
Definition get_all_agent_info (registered : list (string * Agent))
  : list AgentInfo :=
  map (fun entry =>
         let '(agent_id, agent) := entry in
         {| key := agent_id; info_description := description agent |})
      registered.

(** The graphs of the dictionary [agents], by agent id: what [get_agent]
    looks an agent up in. *)
Definition graphs (registered : list (string * Agent))
  : list (string * Pregel) :=
  map (fun entry => let '(agent_id, agent) := entry in (agent_id, graph agent))
      registered.

(** *** Calls that leave the service *)

(** The arguments of [langfuse.score]. *)
Record score : Type := {
  score_id : string;
  trace_id : string;
  name : string;
  score_value : value;
  comment : value
}.

(** What an endpoint does to the outside: the effects of the handlers above,
    a read of the persisted state, the making of a Langfuse client, a score
    sent to Langfuse. *)
Inductive outside_call : Type :=
| of_handler (e : effect)
| get_state_call (configurable : list (string * value))
| Langfuse_call (public_key secret_key host : string)
| score_call (s : score).

Definition App (A : Type) : Type := (list outside_call * result A)%type.

Definition app_ret {A} (a : A) : App A := ([], Ok a).

Definition app_raise {A} (e : exn) : App A := ([], Raise e).

Definition app_lift {A} (r : result A) : App A := ([], r).

Definition app_call {A} (c : outside_call) (r : result A) : App A := ([c], r).

Definition app_bind {A B} (m : App A) (k : A -> App B) : App B :=
  match m with
  | (t, Ok a) => let (t', r) := k a in (t ++ t', r)
  | (t, Raise e) => (t, Raise e)
  end.

(** [try: body except Exception as e: handler e]. *)
Definition app_try_except {A} (body : App A) (handler : exn -> App A) : App A :=
  match body with
  | (t, Ok a) => (t, Ok a)
  | (t, Raise e) => let (t', r) := handler e in (t ++ t', r)
  end.

(** A handler of the service, run by an endpoint. *)
Definition served {A} (g : Gen A) : App A := (map of_handler (fst g), snd g).

(** The Langfuse client, the identifier [uuid4()] returns in [feedback], and
    [str(e)] of an exception. *)
Class Telemetry : Type := {
  Langfuse : string -> string -> string -> result unit;
  Langfuse_score : score -> result unit;
  uuid4_score : string;
  exception_text : exn -> string
}.

(** [agent.get_state(config).values], by the [configurable] of the
    config. *)
Class Checkpoints : Type := {
  get_state : Pregel -> list (string * value) -> result value
}.

(** Modelled from the spec: [Feedback] of [schema/schema.py], whose source is
    not at hand (section 6: run id, key, score, optional kwargs). *)
Module Feedback.

Record t : Type := mk {
  run_id : string;
  key : string;
  score : value;
  kwargs : list (string * value)
}.

End Feedback.

(** Modelled from the spec: the answers of the endpoints (section 6). *)
Inductive response : Type :=
| ServiceMetadata (agents : list AgentInfo) (default_agent : string)
| ChatMessage_response (m : ChatMessage.t)
| StreamingResponse (body : Gen unit)
| FeedbackResponse (status : string)
| ChatHistory (messages : list ChatMessage.t)
| health_response (status : string).

(** Modelled from the spec: the requests of the HTTP surface (section 6);
    the body of /history is its thread id. *)
Inductive request : Type :=
| GET_info
| POST_invoke (agent_id : option string) (user_input : UserInput)
| POST_stream (agent_id : option string) (user_input : StreamInput)
| POST_feedback (feedback : Feedback.t)
| POST_history (thread_id : string)
| GET_health.

Section Endpoints.

Context {utils : ServiceUtils} {runtime : Runtime} {settings : Settings}
        {env : Environ} {telemetry : Telemetry} {checkpoints : Checkpoints}.

Variable registered : list (string * Agent).

(** [a or b] on optional texts. *)
Definition or_else (a b : option string) : option string :=
  if some_text a then a else b.

Definition text_of (o : option string) : string :=
  match o with
  | Some s => s
  | None => ""
  end.

Definition credentials_not_found : exn :=
  HTTPException 500 (detail_text "Langfuse credentials not found").

Definition feedback (feedback : Feedback.t) : App response :=
  app_try_except
    (let public_key :=
       or_else (environ_get "LANGFUSE_PUBLIC_KEY") LANGFUSE_PUBLIC_KEY in
     let secret_key :=
       or_else (environ_get "LANGFUSE_SECRET_KEY") LANGFUSE_SECRET_KEY in
     let host :=
       text_of (or_else (or_else (environ_get "LANGFUSE_HOST") LANGFUSE_HOST)
                        (Some "https://cloud.langfuse.com")) in
     if negb (some_text public_key) || negb (some_text secret_key) then
       app_raise credentials_not_found
     else
       let public_key := text_of public_key in
       let secret_key := text_of secret_key in
       app_bind
         (app_call (Langfuse_call public_key secret_key host)
                   (Langfuse public_key secret_key host))
         (fun _ =>
            let sent :=
              {| score_id := uuid4_score;
                 trace_id := Feedback.run_id feedback;
                 name := Feedback.key feedback;
                 score_value := Feedback.score feedback;
                 comment :=
                   if nonempty (Feedback.kwargs feedback) then
                     match lookup "comment" (Feedback.kwargs feedback) with
                     | Some c => c
                     | None => Str ""
                     end
                   else Str "" |} in
            app_bind (app_call (score_call sent) (Langfuse_score sent))
                     (fun _ => app_ret (FeedbackResponse "success"))))
    (fun e =>
       app_raise
         (HTTPException 500
            (detail_text ("Error recording feedback: "
                          ++ exception_text e)%string))).

Definition history (thread_id : string) : App response :=
  app_bind (app_lift (get_agent DEFAULT_AGENT))
    (fun agent =>
       app_try_except
         (let configurable := [("thread_id", Str thread_id)] in
          app_bind
            (app_call (get_state_call configurable)
                      (get_state agent configurable))
            (fun values =>
               app_lift
                 (messages <- getitem values "messages" ;;
                  ms <- iter messages ;;
                  chat_messages <- rmap langchain_to_chat_message ms ;;
                  Ok (ChatHistory chat_messages))%res))
         (fun e => app_raise unexpected_error)).

Definition info : App response :=
  app_ret (ServiceMetadata (get_all_agent_info registered) DEFAULT_AGENT).

Definition health_check : App response := app_ret (health_response "ok").

(** The agent id of a route: the path parameter, or the default. *)
Definition route_agent (agent_id : option string) : string :=
  match agent_id with
  | Some a => a
  | None => DEFAULT_AGENT
  end.

(** [stream] answers with the generator as the body of the response; the
    generator runs when the body is sent. *)
Definition stream (user_input : StreamInput) (agent_id : string)
  : App response :=
  app_ret (StreamingResponse (message_generator user_input agent_id)).

(** The endpoints of [router], which depend on [verify_bearer], and the
    endpoint /health of [app], which does not. *)
Definition on_router (req : request) : bool :=
  match req with
  | GET_health => false
  | _ => true
  end.

Definition endpoint (req : request) : App response :=
  match req with
  | GET_info => info
  | POST_invoke agent_id user_input =>
      app_bind (served (invoke user_input (route_agent agent_id)))
               (fun m => app_ret (ChatMessage_response m))
  | POST_stream agent_id user_input =>
      stream user_input (route_agent agent_id)
  | POST_feedback fb => feedback fb
  | POST_history thread_id => history thread_id
  | GET_health => health_check
  end.

(** The application [app]: the router behind [verify_bearer], and /health. *)
Definition service_app (http_auth : option HTTPAuthorizationCredentials)
           (req : request) : App response :=
  if on_router req then
    app_bind (app_lift (verify_bearer http_auth)) (fun _ => endpoint req)
  else endpoint req.

End Endpoints.

(** A registry and surroundings for sample requests. *)
Definition sample_registry : list (string * Agent) :=
  [(DEFAULT_AGENT,
    {| description := "A research assistant with web search and calculator.";
       graph := mock_agent (Ok values_run) exhausted |})].

Definition sample_settings (secret : option string) : Settings :=
  {| AUTH_SECRET := secret;
     LANGFUSE_PUBLIC_KEY := None;
     LANGFUSE_SECRET_KEY := None;
     LANGFUSE_HOST := None |}.

Definition sample_environ (langfuse : bool) : Environ :=
  {| environ_get := fun k =>
       if langfuse
          && (String.eqb k "LANGFUSE_PUBLIC_KEY"
              || String.eqb k "LANGFUSE_SECRET_KEY")
       then Some "fake-key" else None |}.

Definition sample_telemetry : Telemetry :=
  {| Langfuse := fun _ _ _ => Ok tt;
     Langfuse_score := fun _ => Ok tt;
     uuid4_score := "0c9f5c6e-3d0b-4c1e-9a57-2f1d1b7e8a10";
     exception_text := fun e =>
       match e with
       | HTTPException 500 (detail_text d) => ("500: " ++ d)%string
       | _ => ""
       end |}.

Definition sample_checkpoints (values : result value) : Checkpoints :=
  {| get_state := fun _ _ => values |}.

(** A request that names its thread, model and user and adds a setting of
    its own. *)
Definition sample_request : UserInput :=
  {| message := QUESTION; model := Some "gpt-4o";
     thread_id := Some "thread-1"; user_id := Some "user-7";
     agent_config := [("spicy_level", Int 1)] |}.

(** A request for the messages alone: no tokens, no node updates. *)
Definition ask_quietly : StreamInput :=
  {| user := ask []; stream_tokens := Some false;
     stream_node_updates := Some false |}.

Definition token_event (s : string) : value :=
  Tuple [Str "messages"; Tuple [Message AIMessageChunk (Text s) None None;
                                Dict []]].

Definition token_stream : engine_stream :=
  item (token_event "The") (item (token_event " weather") sample_stream).

Definition sample_feedback : Feedback.t :=
  Feedback.mk "847c6285-8fc9-4560-a83f-4e6285809254" "human-feedback-stars"
              (Int 1) [("comment", Str "Great answer")].

(** The persisted state of a thread after one exchange. *)
Definition stored_exchange : value :=
  Dict [("messages", List_ [human QUESTION; ai ANSWER])].

Definition bearer (token : string) : HTTPAuthorizationCredentials :=
  {| scheme := "Bearer"; credentials := token |}.

(** * Properties *)

(** ** Rules for [Gen] *)

Lemma trace_frames_app (t t' : list effect) :
  trace_frames (t ++ t') = trace_frames t ++ trace_frames t'.
Proof. unfold trace_frames. apply flat_map_app. Qed.

Lemma trace_calls_app (t t' : list effect) :
  trace_calls (t ++ t') = trace_calls t ++ trace_calls t'.
Proof. unfold trace_calls. apply flat_map_app. Qed.

Lemma bind_Ok {A B} (m : Gen A) (k : A -> Gen B) t a :
  m = (t, Ok a) -> bind m k = (t ++ fst (k a), snd (k a)).
Proof. intros ->. unfold bind. now destruct (k a). Qed.

Lemma bind_Raise {A B} (m : Gen A) (k : A -> Gen B) t e :
  m = (t, Raise e) -> bind m k = (t, Raise e).
Proof. now intros ->. Qed.

Lemma bind_lift_Ok {A B} (r : result A) (k : A -> Gen B) a :
  r = Ok a -> bind (lift r) k = k a.
Proof. intros ->. unfold bind, lift. now destruct (k a). Qed.

Lemma bind_lift_Raise {A B} (r : result A) (k : A -> Gen B) e :
  r = Raise e -> bind (lift r) k = raise e.
Proof. now intros ->. Qed.

Lemma frames_bind_Ok {A B} (m : Gen A) (k : A -> Gen B) t a :
  m = (t, Ok a) -> frames (bind m k) = frames m ++ frames (k a).
Proof.
  intros E. rewrite (bind_Ok m k t a E). subst m.
  unfold frames. cbn [fst]. apply trace_frames_app.
Qed.

Lemma frames_bind_Raise {A B} (m : Gen A) (k : A -> Gen B) t e :
  m = (t, Raise e) -> frames (bind m k) = frames m.
Proof. intros E. rewrite (bind_Raise m k t e E). now subst m. Qed.

(** The text of a data frame is never the text of the sentinel: a dumped
    dictionary opens with a brace. *)
Lemma data_frame_text_not_sentinel (dumps : string -> payload -> string) ty c :
  (exists rest, dumps ty c = String "{" rest) ->
  frame_text dumps (Data ty c) <> frame_text dumps DONE.
Proof.
  intros [rest E]. unfold frame_text. rewrite E. cbn. discriminate.
Qed.

(** *** Proof rules for [yields_only] *)

Section YieldsOnly.

Variable P : frame -> Prop.

Lemma yields_ret {A} (a : A) : yields_only P (ret a).
Proof. constructor. Qed.

Lemma yields_raise {A} (e : exn) : yields_only P (@raise A e).
Proof. constructor. Qed.

Lemma yields_lift {A} (r : result A) : yields_only P (lift r).
Proof. constructor. Qed.

Lemma yields_await {A} c (r : result A) : yields_only P (await c r).
Proof. constructor. Qed.

Lemma yields_yield (f : frame) : P f -> yields_only P (yield f).
Proof. intros H. constructor; [exact H | constructor]. Qed.

Lemma yields_bind {A B} (m : Gen A) (k : A -> Gen B) :
  yields_only P m -> (forall a, yields_only P (k a)) ->
  yields_only P (bind m k).
Proof.
  intros Hm Hk. destruct m as [t [a | e]] eqn:E.
  - unfold yields_only. rewrite (frames_bind_Ok _ k t a eq_refl).
    apply Forall_app. split; [exact Hm | apply Hk].
  - unfold yields_only. rewrite (frames_bind_Raise _ k t e eq_refl).
    exact Hm.
Qed.

Lemma yields_try_except {A} (body : Gen A) (handler : exn -> Gen A) :
  yields_only P body -> (forall e, yields_only P (handler e)) ->
  yields_only P (try_except body handler).
Proof.
  intros Hb Hh. destruct body as [t [a | e]]; cbn [try_except].
  - exact Hb.
  - specialize (Hh e). destruct (handler e) as [t' r].
    unfold yields_only, frames in *. cbn [fst] in *.
    rewrite trace_frames_app. apply Forall_app. now split.
Qed.

Lemma yields_for_each {A} (xs : list A) (body : A -> Gen unit) :
  (forall x, yields_only P (body x)) -> yields_only P (for_each xs body).
Proof.
  intros Hb. induction xs as [| x rest IH]; cbn [for_each].
  - apply yields_ret.
  - apply yields_bind; [apply Hb | intros _; exact IH].
Qed.

Lemma yields_async_for (stream : engine_stream) (body : value -> Gen unit) :
  (forall ev, yields_only P (body ev)) -> yields_only P (async_for stream body).
Proof.
  intros Hb. induction stream as [| e | ev rest IH]; cbn [async_for].
  - apply yields_ret.
  - apply yields_raise.
  - apply yields_bind; [apply Hb | intros _; exact IH].
Qed.

End YieldsOnly.

Create HintDb yields discriminated.
#[export] Hint Resolve yields_ret yields_raise yields_lift yields_await
  yields_yield yields_bind yields_try_except yields_for_each
  yields_async_for : yields.

(** ** The diagnostic frame of a node update *)

Lemma setitem_serializable k v d :
  json_serializable v = true -> values_serializable d = true ->
  values_serializable (setitem k v d) = true.
Proof.
  intros Hv. unfold values_serializable.
  induction d as [| [k' v'] rest IH]; cbn [setitem forallb snd]; intros Hd.
  - now rewrite Hv.
  - apply andb_true_iff in Hd. destruct Hd as [H1 H2].
    destruct (String.eqb k k'); cbn [forallb snd].
    + now rewrite Hv, H2.
    + now rewrite H1, IH.
Qed.

Lemma simplified_messages_serializable ms :
  json_serializable (List_ (map simplify_message ms)) = true.
Proof.
  cbn [json_serializable]. induction ms as [| m rest IH]; [reflexivity |].
  cbn [map forallb]. now rewrite IH.
Qed.

(** What [_simplify_node_updates] returns can always be dumped. *)
Lemma simplified_serializable updates :
  json_serializable (Dict (_simplify_node_updates updates)) = true.
Proof.
  change (values_serializable (_simplify_node_updates updates) = true).
  assert (Hfold : forall kvs result,
             values_serializable result = true ->
             values_serializable
               (fold_left
                  (fun result kv =>
                     let '(key, v) := kv in
                     if String.eqb key "messages" then result
                     else if json_serializable v then setitem key v result
                     else setitem key (complex_data v) result)
                  kvs result) = true).
  { induction kvs as [| [key v] rest IH]; intros result Hr; [exact Hr |].
    cbn [fold_left]. apply IH.
    destruct (String.eqb key "messages"); [exact Hr |].
    destruct (json_serializable v) eqn:Hv;
      now apply setitem_serializable. }
  destruct updates; cbn [_simplify_node_updates]; try reflexivity;
    try (match goal with
         | |- context [if json_serializable ?v then _ else _] =>
             destruct (json_serializable v) eqn:Hv
         end; unfold values_serializable; cbn [forallb snd];
         rewrite ?Hv; reflexivity).
  apply Hfold.
  destruct (lookup "messages" kvs) as [msgs |]; [| reflexivity].
  destruct (iter msgs) as [ms |]; [| reflexivity].
  unfold values_serializable. cbn [forallb snd].
  now rewrite simplified_messages_serializable.
Qed.

(** A node update of a value with a length, or of [None], yields its
    diagnostic frame. *)
Lemma node_update_frame_sized run_id node updates has :
  has_updates_of updates = Ok has ->
  node_update_frame run_id (node, updates)
  = ([yielded (Data "node_update"
                    (update_info node has (_simplify_node_updates updates)
                                 run_id))], Ok tt).
Proof.
  intros H. unfold node_update_frame. rewrite H.
  cbn [lift bind try_except]. unfold dumps_node_update.
  now rewrite simplified_serializable.
Qed.

(** A node update of any other value raises out of the fallback, which
    asks for the length again, and yields nothing. *)
Lemma node_update_frame_unsized run_id node updates e :
  has_updates_of updates = Raise e ->
  node_update_frame run_id (node, updates) = ([], Raise e).
Proof.
  intros H. unfold node_update_frame. now rewrite H.
Qed.

(** The conversion of a message never raises out of its loop body. *)
Lemma emit_message_returns {utils : ServiceUtils} (user_input : StreamInput)
      run_id msg :
  outcome (emit_message user_input run_id msg) = Ok tt.
Proof.
  unfold emit_message.
  destruct (langchain_to_chat_message msg) as [cm | e]; [| reflexivity].
  destruct (_ && _); reflexivity.
Qed.

(** ** The frames of the streaming reducer *)

Section Stream.

Context {utils : ServiceUtils} {runtime : Runtime}.

Lemma handle_input_yields_nothing (P : frame -> Prop) user_input agent :
  yields_only P (_handle_input user_input agent).
Proof.
  unfold _handle_input. apply yields_bind.
  - destruct (nonempty (agent_config user_input)); [| apply yields_ret].
    match goal with |- context [nonempty ?o] => destruct (nonempty o) end;
      auto with yields.
  - intros configurable. auto with yields.
Qed.

Lemma handle_input_frames user_input agent :
  frames (_handle_input user_input agent) = [].
Proof.
  pose proof (handle_input_yields_nothing (fun _ => False) user_input agent) as H.
  unfold yields_only in H. destruct (frames (_handle_input user_input agent)).
  - reflexivity.
  - now inversion H.
Qed.

Lemma node_update_frame_yields (P : frame -> Prop) run_id entry :
  (forall c, P (Data "node_update" c)) ->
  yields_only P (node_update_frame run_id entry).
Proof.
  intros HP. destruct entry as [node updates]. unfold node_update_frame.
  apply yields_try_except.
  - apply yields_bind; [apply yields_lift |]. intros has.
    unfold dumps_node_update.
    destruct (json_serializable _); auto with yields.
  - intros _. auto with yields.
Qed.

Lemma emit_message_yields (P : frame -> Prop) user_input run_id msg :
  P (Data "error" (plain "Unexpected error")) ->
  (forall m, echoes user_input (Data "message" (model_dump m)) = false ->
             ChatMessage.run_id m = Some run_id ->
             P (Data "message" (model_dump m))) ->
  yields_only P (emit_message user_input run_id msg).
Proof.
  intros He Hm. unfold emit_message.
  destruct (langchain_to_chat_message msg) as [chat_message | e].
  - destruct (_ && _) eqn:E; [apply yields_ret |].
    apply yields_yield. apply Hm; [exact E | reflexivity].
  - now apply yields_yield.
Qed.

Lemma emit_token_yields (P : frame -> Prop) user_input event :
  (forall s, P (Data "token" (plain s))) ->
  yields_only P (emit_token user_input event).
Proof.
  intros HP. unfold emit_token.
  destruct (negb (flag (stream_tokens user_input))); [apply yields_ret |].
  apply yields_bind; [apply yields_lift |]. intros [msg metadata].
  apply yields_bind; [apply yields_lift |]. intros tags.
  apply yields_bind; [apply yields_lift |]. intros [|]; [apply yields_ret |].
  destruct (negb (isinstance_AIMessageChunk msg)); [apply yields_ret |].
  apply yields_bind; [apply yields_lift |]. intros c.
  apply yields_bind; [apply yields_lift |]. intros content.
  destruct (truthy content); auto with yields.
Qed.

(** The frames of one event: node updates, messages that do not echo the
    input, conversion errors and tokens. *)
Lemma handle_event_yields (P : frame -> Prop) user_input run_id stream_event :
  (forall c, P (Data "node_update" c)) ->
  P (Data "error" (plain "Unexpected error")) ->
  (forall s, P (Data "token" (plain s))) ->
  (forall m, echoes user_input (Data "message" (model_dump m)) = false ->
             ChatMessage.run_id m = Some run_id ->
             P (Data "message" (model_dump m))) ->
  yields_only P (handle_event user_input run_id stream_event).
Proof.
  intros Hn He Ht Hm. unfold handle_event.
  destruct (negb (isinstance_tuple stream_event)); [apply yields_ret |].
  apply yields_bind; [apply yields_lift |]. intros [stream_mode event].
  apply yields_bind.
  - destruct (is_str "updates" stream_mode); [| apply yields_ret].
    apply yields_bind.
    + destruct (is_not_False _); [| apply yields_ret].
      apply yields_bind; [apply yields_lift |]. intros entries.
      apply yields_for_each. intros entry.
      now apply node_update_frame_yields.
    + intros _. auto with yields.
  - intros new_messages.
    apply yields_bind; [apply yields_lift |]. intros processed_messages.
    apply yields_bind.
    + apply yields_for_each. intros msg. now apply emit_message_yields.
    + intros _. destruct (is_str "messages" stream_mode);
        [now apply emit_token_yields | apply yields_ret].
Qed.

Lemma event_loop_yields (P : frame -> Prop) user_input agent kw run_id :
  (forall c, P (Data "node_update" c)) ->
  P (Data "error" (plain "Unexpected error")) ->
  (forall s, P (Data "token" (plain s))) ->
  (forall m, echoes user_input (Data "message" (model_dump m)) = false ->
             ChatMessage.run_id m = Some run_id ->
             P (Data "message" (model_dump m))) ->
  yields_only P (event_loop user_input agent kw run_id).
Proof.
  intros Hn He Ht Hm. unfold event_loop.
  apply yields_bind; [apply yields_await |]. intros _.
  apply yields_async_for. intros ev. now apply handle_event_yields.
Qed.

(** The sentinel is not among the frames of the event loop. *)
Lemma event_loop_no_DONE user_input agent kw run_id :
  ~ In DONE (frames (event_loop user_input agent kw run_id)).
Proof.
  intros H.
  assert (Y : yields_only (fun f => f <> DONE)
                          (event_loop user_input agent kw run_id))
    by (apply event_loop_yields; intros; discriminate).
  unfold yields_only in Y. rewrite Forall_forall in Y.
  now apply (Y DONE H).
Qed.

(** What [message_generator] does once agent lookup and input handling have
    succeeded: the frames of the event loop, the error frame when the
    loop raised, the sentinel; and it returns normally. *)
Lemma message_generator_after_setup (user_input : StreamInput) agent_id agent
      t kw run_id :
  get_agent agent_id = Ok agent ->
  _handle_input user_input agent = (t, Ok (kw, run_id)) ->
  frames (message_generator user_input agent_id)
  = frames (event_loop user_input agent kw run_id)
    ++ match outcome (event_loop user_input agent kw run_id) with
       | Ok _ => []
       | Raise _ => [internal_server_error]
       end ++ [DONE]
  /\ outcome (message_generator user_input agent_id) = Ok tt.
Proof.
  intros Ha Hi. unfold message_generator.
  rewrite (bind_lift_Ok _ _ agent Ha).
  pose proof (handle_input_frames user_input agent) as Hf.
  rewrite Hi in Hf. unfold frames in Hf. cbn [fst] in Hf.
  rewrite (bind_Ok _ _ t (kw, run_id) Hi).
  unfold frames, outcome. cbn [fst snd].
  rewrite trace_frames_app, Hf. cbn [app].
  destruct (event_loop user_input agent kw run_id) as [tl [[] | e]];
    cbn [try_except try_finally yield fst snd];
    rewrite ?trace_frames_app; cbn; rewrite ?app_nil_r, <- ?app_assoc; auto.
Qed.

(** When agent lookup or input handling raises, nothing is yielded and the
    exception leaves the generator. *)
Lemma message_generator_setup_raises (user_input : StreamInput) agent_id e :
  (get_agent agent_id = Raise e
   \/ exists agent t, get_agent agent_id = Ok agent
                      /\ _handle_input user_input agent = (t, Raise e)) ->
  frames (message_generator user_input agent_id) = []
  /\ outcome (message_generator user_input agent_id) = Raise e.
Proof.
  intros [Ha | (agent & t & Ha & Hi)]; unfold message_generator.
  - rewrite (bind_lift_Raise _ _ e Ha). now split.
  - rewrite (bind_lift_Ok _ _ agent Ha).
    pose proof (handle_input_frames user_input agent) as Hf.
    rewrite (bind_Raise _ _ t e Hi). rewrite Hi in Hf. now split.
Qed.

(** *** A sub-agent node without messages *)

Lemma sub_agent_names node :
  sub_agent node = true -> node = "research_expert" \/ node = "math_expert".
Proof.
  unfold sub_agent. intros H. apply orb_true_iff in H.
  destruct H as [H | H]; apply String.eqb_eq in H; auto.
Qed.

Lemma node_messages_sub_agent node updates :
  sub_agent node = true ->
  node_messages (node, updates)
  = (update_messages <- update_messages_of updates ;;
     update_messages <- sub_agent_case node update_messages ;;
     iter update_messages)%res.
Proof.
  intros H. unfold node_messages, update_messages_of.
  rewrite H.
  destruct (sub_agent_names node H) as [-> | ->]; cbn [String.eqb Ascii.eqb Bool.eqb];
    reflexivity.
Qed.

Lemma node_messages_silent_sub_agent node updates :
  sub_agent node = true ->
  update_messages_of updates = Ok (List_ []) ->
  node_messages (node, updates) = Raise IndexError.
Proof.
  intros H E. rewrite (node_messages_sub_agent node updates H), E.
  reflexivity.
Qed.

Lemma collect_messages_raises entries entry e :
  In entry entries -> node_messages entry = Raise e ->
  exists e', collect_messages entries = Raise e'.
Proof.
  intros Hin He. induction entries as [| x rest IH]; [contradiction |].
  cbn [collect_messages]. destruct Hin as [-> | Hin].
  - rewrite He. now exists e.
  - destruct (node_messages x) as [ms | e0]; cbn [rbind]; [| now exists e0].
    destruct (IH Hin) as [e' ->]. now exists e'.
Qed.

Lemma async_for_prepend pre stream (body : value -> Gen unit) :
  async_for (prepend pre stream) body
  = bind (for_each pre body) (fun _ => async_for stream body).
Proof.
  induction pre as [| ev rest IH]; cbn [prepend async_for for_each].
  - unfold bind, ret. destruct (async_for stream body). reflexivity.
  - rewrite IH. destruct (body ev) as [t1 [[] | e]]; cbn [bind]; [| reflexivity].
    destruct (for_each rest body) as [t2 [[] | e]]; cbn [bind].
    + destruct (async_for stream body) as [t3 r]. now rewrite app_assoc.
    + reflexivity.
Qed.

(** The event of a silent sub-agent yields node-update frames at most and
    then raises. *)
Lemma handle_event_silent_sub_agent (user_input : StreamInput) run_id
      entries node updates :
  In (node, updates) entries ->
  sub_agent node = true ->
  update_messages_of updates = Ok (List_ []) ->
  Forall is_node_update
         (frames (handle_event user_input run_id (updates_event entries)))
  /\ exists e,
      outcome (handle_event user_input run_id (updates_event entries))
      = Raise e.
Proof.
  intros Hin Hs He.
  pose proof (node_messages_silent_sub_agent node updates Hs He) as Hr.
  destruct (collect_messages_raises entries _ _ Hin Hr) as [e' Hc].
  unfold handle_event, updates_event.
  cbn [isinstance_tuple negb unpack2 iter lift].
  rewrite (bind_lift_Ok (Ok (Str "updates", Dict entries)) _ _ eq_refl).
  cbn [is_str String.eqb Ascii.eqb Bool.eqb items].
  set (diag := (if is_not_False (stream_node_updates user_input)
                then bind (lift (Ok entries))
                          (fun entries0 =>
                             for_each entries0 (node_update_frame run_id))
                else ret tt)).
  assert (Hd : yields_only is_node_update diag).
  { unfold diag. destruct (is_not_False _); [| apply yields_ret].
    apply yields_bind; [apply yields_lift |]. intros es.
    apply yields_for_each. intros entry.
    apply node_update_frame_yields. intros c. exact I. }
  unfold yields_only, frames in Hd.
  destruct diag as [t1 [[] | e1]]; cbn [fst] in Hd.
  - cbn [bind lift]. rewrite Hc. unfold frames, outcome. cbn.
    rewrite app_nil_r. split; [exact Hd | now exists e'].
  - unfold frames, outcome. cbn. split; [exact Hd | now exists e1].
Qed.

(** C10: an event with a sub-agent node ("research_expert" or
    "math_expert") whose message list is empty or absent makes the reducer
    index the empty list, which raises; the event contributes node-update
    frames at most and no message, and the stream ends there with the error
    frame and the sentinel, whatever events would have followed. *)
Theorem silent_sub_agent_ends_stream (user_input : StreamInput) agent_id agent
        t kw run_id pre tp entries rest node updates :
  get_agent agent_id = Ok agent ->
  _handle_input user_input agent = (t, Ok (kw, run_id)) ->
  astream agent kw = prepend pre (item (updates_event entries) rest) ->
  for_each pre (handle_event user_input run_id) = (tp, Ok tt) ->
  In (node, updates) entries ->
  sub_agent node = true ->
  update_messages_of updates = Ok (List_ []) ->
  node_messages (node, updates) = Raise IndexError
  /\ exists nu,
      Forall is_node_update nu
      /\ frames (message_generator user_input agent_id)
         = trace_frames tp ++ nu ++ [internal_server_error; DONE].
Proof.
  intros Ha Hi Hs Hp Hin Hsub He.
  split; [now apply node_messages_silent_sub_agent |].
  destruct (handle_event_silent_sub_agent user_input run_id entries node
              updates Hin Hsub He) as [Hnu [e Hr]].
  destruct (message_generator_after_setup _ _ _ _ _ _ Ha Hi) as [Hf _].
  exists (frames (handle_event user_input run_id (updates_event entries))).
  split; [exact Hnu |].
  rewrite Hf. clear Hf. unfold event_loop.
  rewrite Hs, async_for_prepend, Hp. cbn [async_for].
  destruct (handle_event user_input run_id (updates_event entries))
    as [tev r]. unfold outcome in Hr. cbn [snd] in Hr. subst r.
  unfold frames, outcome. cbn. rewrite trace_frames_app. cbn.
  now rewrite <- app_assoc.
Qed.

(** *** Events of a single node *)

Lemma node_update_frames_no_message fs :
  Forall is_node_update fs -> message_frames fs = [].
Proof.
  induction 1 as [| f rest Hf _ IH]; [reflexivity |].
  unfold message_frames in *. cbn [filter]. rewrite IH.
  destruct f as [ty c |]; [| contradiction].
  unfold is_node_update in Hf. unfold is_message_frame.
  destruct (String.eqb ty "node_update") eqn:E.
  - apply String.eqb_eq in E. now subst ty.
  - destruct ty as [| a ty']; [contradiction |].
    exfalso. revert Hf E.
    repeat (match goal with
            | |- context [match ?x with _ => _ end] => destruct x
            end; try contradiction; try discriminate).
Qed.

Lemma diagnostic_frames_node_updates (user_input : StreamInput) run_id entries :
  yields_only is_node_update
    (if is_not_False (stream_node_updates user_input)
     then bind (lift (Ok entries))
               (fun es => for_each es (node_update_frame run_id))
     else ret tt).
Proof.
  destruct (is_not_False _); [| apply yields_ret].
  apply yields_bind; [apply yields_lift |]. intros es.
  apply yields_for_each. intros entry.
  apply node_update_frame_yields. intros c. exact I.
Qed.

Lemma assemble_single m :
  isinstance_tuple m = false -> assemble [m] = Ok [m].
Proof.
  intros Hm. unfold assemble. cbn [assemble_loop]. now rewrite Hm.
Qed.

(** An event of one node that contributes one complete message [m] puts at
    most one [message] frame on the stream: the conversion of [m], tagged
    with the run id. *)
Lemma single_candidate_frames (user_input : StreamInput) run_id node updates m :
  node_messages (node, updates) = Ok [m] ->
  isinstance_tuple m = false ->
  let fs := frames (handle_event user_input run_id
                                 (updates_event [(node, updates)])) in
  message_frames fs = []
  \/ exists cm,
      langchain_to_chat_message m = Ok cm
      /\ message_frames fs
         = [Data "message" (model_dump (ChatMessage.set_run_id cm run_id))].
Proof.
  intros Hn Hm. unfold handle_event, updates_event.
  cbn [isinstance_tuple negb unpack2 iter lift].
  rewrite (bind_lift_Ok (Ok (Str "updates", Dict [(node, updates)])) _ _ eq_refl).
  cbn [is_str String.eqb Ascii.eqb Bool.eqb items].
  pose proof (diagnostic_frames_node_updates user_input run_id
                [(node, updates)]) as Hd.
  destruct (if is_not_False (stream_node_updates user_input) then _ else _)
    as [t1 [[] | e1]]; unfold yields_only, frames in Hd; cbn [fst] in Hd;
    apply node_update_frames_no_message in Hd.
  2: { left. exact Hd. }
  cbn [bind lift collect_messages]. rewrite Hn.
  cbn [rbind app]. rewrite (assemble_single m Hm).
  cbn [for_each bind ret]. unfold emit_message.
  destruct (langchain_to_chat_message m) as [cm | e].
  - destruct (_ && _).
    + left. cbn. unfold frames. cbn [fst]. now rewrite !app_nil_r.
    + right. exists cm. split; [reflexivity |].
      cbn. unfold frames, message_frames in *. cbn [fst].
      rewrite !app_nil_r, trace_frames_app, filter_app, Hd. reflexivity.
  - left. cbn. unfold frames, message_frames in *. cbn [fst].
    rewrite !app_nil_r, trace_frames_app, filter_app, Hd. reflexivity.
Qed.

Lemma node_messages_supervisor updates :
  node_messages ("supervisor", updates)
  = (update_messages <- update_messages_of updates ;;
     update_messages <- supervisor_case update_messages ;;
     iter update_messages)%res.
Proof. reflexivity. Qed.

Lemma filter_last_true {A} (f : A -> bool) xs earlier x :
  filter f xs = earlier ++ [x] -> f x = true.
Proof.
  intros H.
  assert (Hin : In x (filter f xs)) by (rewrite H; apply in_or_app; right; now left).
  now apply filter_In in Hin.
Qed.


(** C7: of the message list of an update of the node "supervisor", with
    its N assistant messages, the reducer keeps the last assistant message
    alone when N is at least one (earlier assistant messages and everything
    else are dropped), and the list as it is when N is zero; so at most
    one assistant message is surfaced, the last, and the event of such an
    update puts at most one [message] frame on the stream, its conversion. *)
Theorem supervisor_surfaces_last_assistant (user_input : StreamInput) run_id
        updates :
  (forall surfaced,
      node_messages ("supervisor", updates) = Ok surfaced ->
      length (filter isinstance_AIMessage surfaced) <= 1)
  /\ (forall l ms,
        update_messages_of updates = Ok l ->
        iter l = Ok ms ->
        let surfaced :=
          match rev (filter isinstance_AIMessage ms) with
          | [] => ms
          | last_ai :: _ => [last_ai]
          end in
        node_messages ("supervisor", updates) = Ok surfaced
        /\ filter isinstance_AIMessage surfaced
           = match rev (filter isinstance_AIMessage ms) with
             | [] => []
             | last_ai :: _ => [last_ai]
             end
        /\ (forall earlier last_ai,
              filter isinstance_AIMessage ms = earlier ++ [last_ai] ->
              surfaced = [last_ai]
              /\ let fs := frames (handle_event user_input run_id
                                     (updates_event [("supervisor", updates)])) in
                 (message_frames fs = []
                  \/ exists cm,
                      langchain_to_chat_message last_ai = Ok cm
                      /\ message_frames fs
                         = [Data "message"
                                 (model_dump
                                    (ChatMessage.set_run_id cm run_id))]))).
Proof.
  assert (Hnode : forall l ms,
             update_messages_of updates = Ok l -> iter l = Ok ms ->
             node_messages ("supervisor", updates)
             = Ok match rev (filter isinstance_AIMessage ms) with
                  | [] => ms
                  | last_ai :: _ => [last_ai]
                  end).
  { intros l ms Hl Hms. rewrite node_messages_supervisor, Hl. cbn [rbind].
    unfold supervisor_case. rewrite Hms. cbn [rbind].
    destruct (rev (filter isinstance_AIMessage ms)); [exact Hms | reflexivity]. }
  assert (Hai : forall ms,
             filter isinstance_AIMessage
                    match rev (filter isinstance_AIMessage ms) with
                    | [] => ms
                    | last_ai :: _ => [last_ai]
                    end
             = match rev (filter isinstance_AIMessage ms) with
               | [] => []
               | last_ai :: _ => [last_ai]
               end).
  { intros ms.
    destruct (rev (filter isinstance_AIMessage ms)) as [| last_ai others] eqn:E.
    - apply (f_equal (@rev value)) in E. rewrite rev_involutive in E.
      exact E.
    - assert (Hin : In last_ai (filter isinstance_AIMessage ms))
        by (apply in_rev; rewrite E; now left).
      apply filter_In in Hin. cbn [filter]. now rewrite (proj2 Hin). }
  split.
  - intros surfaced H.
    destruct (update_messages_of updates) as [l | e] eqn:Hl.
    2: { rewrite node_messages_supervisor, Hl in H. discriminate. }
    destruct (iter l) as [ms | e] eqn:Hms.
    2: { rewrite node_messages_supervisor, Hl in H. cbn [rbind] in H.
         unfold supervisor_case in H. rewrite Hms in H. discriminate. }
    rewrite (Hnode l ms eq_refl Hms) in H. injection H as <-.
    rewrite Hai. destruct (rev (filter isinstance_AIMessage ms)); cbn; lia.
  - intros l ms Hl Hms surfaced.
    split; [now apply (Hnode l ms) |]. split; [apply Hai |].
    intros earlier last_ai E.
    assert (Hs : surfaced = [last_ai])
      by (unfold surfaced; rewrite E, rev_app_distr; reflexivity).
    split; [exact Hs |].
    apply single_candidate_frames.
    + now rewrite (Hnode l ms Hl Hms), <- Hs.
    + pose proof (filter_last_true _ _ _ _ E) as Hlast.
      destruct last_ai; try discriminate; reflexivity.
Qed.


(** C1 (amended): for every /stream request whose agent lookup and input
    handling succeed, the emitted frames end with exactly one [DONE]
    sentinel, whether the event loop finishes or raises; when it raises, the
    frame just before the sentinel is the error frame and the generator still
    returns normally.  When agent lookup or input handling raises, the
    exception leaves the generator and no frame is emitted. *)
Theorem stream_ends_with_DONE_after_setup (user_input : StreamInput) agent_id :
  (forall agent t kw run_id,
      get_agent agent_id = Ok agent ->
      _handle_input user_input agent = (t, Ok (kw, run_id)) ->
      ends_with_one_DONE (frames (message_generator user_input agent_id))
      /\ outcome (message_generator user_input agent_id) = Ok tt
      /\ (forall e,
             outcome (event_loop user_input agent kw run_id) = Raise e ->
             frames (message_generator user_input agent_id)
             = frames (event_loop user_input agent kw run_id)
               ++ [internal_server_error; DONE]))
  /\ (forall e,
        (get_agent agent_id = Raise e
         \/ exists agent t, get_agent agent_id = Ok agent
                            /\ _handle_input user_input agent = (t, Raise e)) ->
        frames (message_generator user_input agent_id) = []
        /\ outcome (message_generator user_input agent_id) = Raise e).
Proof.
  split.
  - intros agent t kw run_id Ha Hi.
    destruct (message_generator_after_setup _ _ _ _ _ _ Ha Hi) as [Hf Ho].
    split; [| split; [exact Ho |]].
    + exists (frames (event_loop user_input agent kw run_id)
              ++ match outcome (event_loop user_input agent kw run_id) with
                 | Ok _ => []
                 | Raise _ => [internal_server_error]
                 end).
      split; [now rewrite Hf, app_assoc |].
      intros H. apply in_app_or in H. destruct H as [H | H].
      * now apply (event_loop_no_DONE user_input agent kw run_id).
      * destruct (outcome (event_loop user_input agent kw run_id));
          cbn in H; [contradiction | destruct H as [H | []]; discriminate].
    + intros e He. now rewrite Hf, He.
  - intros e. apply message_generator_setup_raises.
Qed.

(** C9: no [message] frame of a /stream request carries a human-role
    message whose content equals the input message of the request. *)
Theorem input_echo_never_framed (user_input : StreamInput) agent_id :
  Forall (fun f => echoes user_input f = false)
         (frames (message_generator user_input agent_id)).
Proof.
  destruct (get_agent agent_id) as [agent | e] eqn:Ha.
  2: { destruct (message_generator_setup_raises user_input agent_id e
                   (or_introl Ha)) as [-> _]. constructor. }
  destruct (_handle_input user_input agent) as [t [[kw run_id] | e]] eqn:Hi.
  2: { destruct (message_generator_setup_raises user_input agent_id e) as [-> _];
       [right; now exists agent, t | constructor]. }
  destruct (message_generator_after_setup _ _ _ _ _ _ Ha Hi) as [-> _].
  apply Forall_app. split.
  - apply event_loop_yields; try reflexivity. intros m H _. exact H.
  - apply Forall_app. split.
    + destruct (outcome _); repeat constructor.
    + repeat constructor.
Qed.

End Stream.

(** ** Reserved keys of [agent_config] *)

Section ReservedKeys.

Context {runtime : Runtime}.

Lemma nonempty_filter {A} (f : A -> bool) xs :
  nonempty (filter f xs) = existsb f xs.
Proof.
  induction xs as [| x rest IH]; [reflexivity |].
  cbn [filter existsb]. destruct (f x); [reflexivity | exact IH].
Qed.

Lemma existsb_nil_config (ks : list string) :
  existsb (fun k => has_key k []) ks = false.
Proof. induction ks; [reflexivity | exact IHks]. Qed.

Ltac case_configurable user_input :=
  unfold _handle_input, present_keys, some_text;
  destruct (model user_input) as [m |];
  [destruct (String.eqb m "") |];
  (destruct (user_id user_input) as [u |];
   [destruct (String.eqb u "") |]);
  cbn [negb app setitem String.eqb Ascii.eqb Bool.eqb keys map fst].

(** [agent_config] is refused, before any engine call, when it has a key
    that the request has put into [configurable]. *)
Lemma handle_input_rejects user_input agent :
  existsb (fun k => has_key k (agent_config user_input))
          (present_keys user_input) = true ->
  exists overlap,
    _handle_input user_input agent
    = ([], Raise (HTTPException 422 (reserved_keys overlap))).
Proof.
  destruct (agent_config user_input) as [| kv config] eqn:Hc.
  { now rewrite existsb_nil_config. }
  case_configurable user_input; rewrite Hc; cbn [nonempty];
    rewrite nonempty_filter; intros ->; eexists; reflexivity.
Qed.

(** Otherwise the engine is asked for the state of the thread. *)
Lemma handle_input_accepts user_input agent :
  existsb (fun k => has_key k (agent_config user_input))
          (present_keys user_input) = false ->
  exists c, engine_calls (_handle_input user_input agent) = [call_aget_state c].
Proof.
  destruct (agent_config user_input) as [| kv config] eqn:Hc;
    case_configurable user_input; rewrite Hc; cbn [nonempty];
    rewrite ?nonempty_filter; intros H; rewrite ?H;
    cbn [bind ret]; eexists;
    match goal with
    | |- context [aget_state agent ?c] => destruct (aget_state agent c)
    end; reflexivity.
Qed.

(** The thread id is always among the keys that are checked. *)
Lemma thread_id_always_reserved user_input agent :
  has_key "thread_id" (agent_config user_input) = true ->
  exists overlap,
    _handle_input user_input agent
    = ([], Raise (HTTPException 422 (reserved_keys overlap))).
Proof.
  intros H. apply handle_input_rejects.
  unfold present_keys. cbn [existsb]. now rewrite H.
Qed.

End ReservedKeys.

(** ** The partial-message assembler *)

Section Assembler.

Context {runtime : Runtime}.

Lemma rmap_Forall2 {A B} (f : A -> result B) xs ys :
  rmap f xs = Ok ys -> Forall2 (fun x y => f x = Ok y) xs ys.
Proof.
  revert ys. induction xs as [| x rest IH]; intros ys H; cbn [rmap] in H.
  - injection H as <-. constructor.
  - destruct (f x) as [y | e] eqn:E; cbn [rbind] in H; [| discriminate].
    destruct (rmap f rest) as [ys' | e]; cbn [rbind] in H; [| discriminate].
    injection H as <-. constructor; [exact E | now apply IH].
Qed.

Lemma parts_put_nonempty k v d : nonempty (parts_put k v d) = true.
Proof. destruct d as [| [k' v'] rest]; cbn; [| destruct (key_eqb k k')]; reflexivity. Qed.

Lemma accumulate_keeps_nonempty fs : forall d d',
  nonempty d = true -> accumulate d fs = Ok d' -> nonempty d' = true.
Proof.
  induction fs as [| f rest IH]; intros d d' Hd H; cbn [accumulate] in H.
  - now injection H as <-.
  - destruct (unpack2 f) as [[key v] | e]; cbn [rbind] in H; [| discriminate].
    unfold parts_setitem in H.
    destruct (hashable key); cbn [rbind] in H; [| discriminate].
    eapply IH; [| exact H]. apply parts_put_nonempty.
Qed.

Lemma accumulate_cons_nonempty f fs d d' :
  accumulate d (f :: fs) = Ok d' -> nonempty d' = true.
Proof.
  cbn [accumulate]. intros H.
  destruct (unpack2 f) as [[key v] | e]; cbn [rbind] in H; [| discriminate].
  unfold parts_setitem in H.
  destruct (hashable key); cbn [rbind] in H; [| discriminate].
  eapply accumulate_keeps_nonempty; [| exact H]. apply parts_put_nonempty.
Qed.

Lemma accumulate_app fs gs : forall d,
  accumulate d (fs ++ gs) = (d' <- accumulate d fs ;; accumulate d' gs)%res.
Proof.
  induction fs as [| f rest IH]; intros d; cbn [app accumulate rbind].
  - reflexivity.
  - destruct (unpack2 f) as [[key v] | e]; cbn [rbind]; [| reflexivity].
    destruct (parts_setitem key v d) as [d1 | e]; cbn [rbind]; [| reflexivity].
    apply IH.
Qed.

(** A run of fragments in front of a candidate list joins the run the list
    starts with, or is a run of its own. *)
Lemma segments_run_app pend msgs :
  Forall (fun m => isinstance_tuple m = true) pend -> pend <> [] ->
  segments (pend ++ msgs)
  = match segments msgs with
    | fragment_run fs :: segs => fragment_run (pend ++ fs) :: segs
    | segs => fragment_run pend :: segs
    end.
Proof.
  induction pend as [| p ps IH]; intros Hall Hne; [contradiction |].
  inversion Hall as [| ? ? Hp Hps]; subst.
  cbn [app segments]. rewrite Hp.
  destruct ps as [| p' ps'].
  - cbn [app]. destruct (segments msgs) as [| [fs | c] segs]; reflexivity.
  - rewrite (IH Hps) by discriminate.
    destruct (segments msgs) as [| [fs | c] segs]; reflexivity.
Qed.

Lemma segments_tuple_head pend m rest :
  Forall (fun m => isinstance_tuple m = true) pend ->
  isinstance_tuple m = true ->
  exists fs segs,
    segments (pend ++ m :: rest) = fragment_run (pend ++ m :: fs) :: segs.
Proof.
  intros Hall Hm.
  assert (H : exists fs segs,
             segments (m :: rest) = fragment_run (m :: fs) :: segs).
  { cbn [segments]. rewrite Hm.
    destruct (segments rest) as [| [fs | c] segs]; eauto. }
  destruct H as (fs & segs & H).
  destruct pend as [| p ps]; [now exists fs, segs |].
  rewrite (segments_run_app (p :: ps) (m :: rest) Hall) by discriminate.
  rewrite H. now exists fs, segs.
Qed.

Lemma segments_complete_head pend m rest :
  Forall (fun m => isinstance_tuple m = true) pend ->
  isinstance_tuple m = false ->
  segments (pend ++ m :: rest)
  = match pend with
    | [] => complete m :: segments rest
    | _ :: _ => fragment_run pend :: complete m :: segments rest
    end.
Proof.
  intros Hall Hm. destruct pend as [| p ps].
  - cbn [app segments]. now rewrite Hm.
  - rewrite (segments_run_app (p :: ps) (m :: rest) Hall) by discriminate.
    cbn [segments]. now rewrite Hm.
Qed.

Lemma segments_runs_nonempty msgs fs :
  In (fragment_run fs) (segments msgs) -> fs <> [].
Proof.
  revert fs. induction msgs as [| m rest IH]; intros fs H; [contradiction |].
  cbn [segments] in H. destruct (isinstance_tuple m).
  - destruct (segments rest) as [| [gs | c] segs] eqn:E.
    + destruct H as [H | []]. injection H as <-. discriminate.
    + destruct H as [H | H]; [injection H as <-; discriminate |].
      apply IH. now right.
    + destruct H as [H | H]; [injection H as <-; discriminate |].
      now apply IH.
  - destruct H as [H | H]; [discriminate | now apply IH].
Qed.

(** The loop, started with the fragments [pend] pending, computes what the
    segmentation of [pend ++ new_messages] prescribes. *)
Lemma assemble_loop_by_runs new_messages : forall processed pend current,
  Forall (fun m => isinstance_tuple m = true) pend ->
  accumulate [] pend = Ok current ->
  final_flush (assemble_loop new_messages processed current)
  = (outs <- rmap flush (segments (pend ++ new_messages)) ;;
     Ok (processed ++ outs))%res.
Proof.
  induction new_messages as [| m rest IH]; intros processed pend current Hall Hacc.
  - cbn [assemble_loop final_flush rbind].
    destruct pend as [| p ps].
    + cbn in Hacc. injection Hacc as <-. cbn. now rewrite app_nil_r.
    + rewrite (accumulate_cons_nonempty _ _ _ _ Hacc).
      rewrite (segments_run_app (p :: ps) [] Hall) by discriminate.
      cbn [segments rmap flush rbind].
      rewrite Hacc. cbn [rbind].
      destruct (_create_ai_message current); reflexivity.
  - cbn [assemble_loop]. destruct (isinstance_tuple m) eqn:Hm.
    + destruct (segments_tuple_head pend m rest Hall Hm) as (fs & segs & Hseg).
      assert (Hstep : accumulate [] (pend ++ m :: fs)
                      = accumulate current (m :: fs))
        by (now rewrite accumulate_app, Hacc).
      destruct (unpack2 m) as [[key v] | e] eqn:Hu; cbn [rbind].
      2: { rewrite Hseg. cbn [rmap flush rbind]. rewrite Hstep.
           cbn [accumulate]. rewrite Hu. reflexivity. }
      destruct (parts_setitem key v current) as [current' | e] eqn:Hs;
        cbn [rbind].
      2: { rewrite Hseg. cbn [rmap flush rbind]. rewrite Hstep.
           cbn [accumulate]. rewrite Hu. cbn [rbind]. rewrite Hs.
           reflexivity. }
      rewrite (IH processed (pend ++ [m]) current').
      * now rewrite <- app_assoc.
      * apply Forall_app. split; [exact Hall | now constructor].
      * rewrite accumulate_app, Hacc. cbn [rbind accumulate].
        rewrite Hu. cbn [rbind]. now rewrite Hs.
    + rewrite (segments_complete_head pend m rest Hall Hm).
      destruct pend as [| p ps].
      * cbn in Hacc. injection Hacc as <-. cbn [nonempty].
        rewrite (IH (processed ++ [m]) [] [] (Forall_nil _) eq_refl).
        cbn [app rmap flush rbind].
        destruct (rmap flush (segments rest)) as [outs | e]; cbn [rbind];
          [now rewrite <- app_assoc | reflexivity].
      * rewrite (accumulate_cons_nonempty _ _ _ _ Hacc).
        cbn [rmap flush rbind]. rewrite Hacc. cbn [rbind].
        destruct (_create_ai_message current) as [synth | e]; cbn [rbind];
          [| reflexivity].
        rewrite (IH (processed ++ [synth] ++ [m]) [] [] (Forall_nil _) eq_refl).
        cbn [app].
        destruct (rmap flush (segments rest)) as [outs | e]; cbn [rbind];
          [now rewrite <- app_assoc | reflexivity].
Qed.

Lemma assemble_final_flush new_messages :
  assemble new_messages = final_flush (assemble_loop new_messages [] []).
Proof. reflexivity. Qed.

(** After a complete message the loop holds no pending fragment, and the
    message is the last one appended. *)
Lemma assemble_loop_after_complete m : forall before processed current st,
  isinstance_tuple m = false ->
  assemble_loop (before ++ [m]) processed current = Ok st ->
  snd st = [] /\ exists front, fst st = front ++ [m].
Proof.
  induction before as [| b rest IH]; intros processed current st Hm H.
  - cbn [app assemble_loop] in H. rewrite Hm in H.
    destruct current as [| kv pending]; cbn [nonempty] in H.
    + cbn [assemble_loop] in H. injection H as <-.
      split; [reflexivity | now exists processed].
    + destruct (_create_ai_message (kv :: pending)) as [synth | e];
        cbn [rbind assemble_loop] in H; [| discriminate].
      injection H as <-. split; [reflexivity |].
      exists (processed ++ [synth]). cbn [fst]. now rewrite <- app_assoc.
  - cbn [app assemble_loop] in H. destruct (isinstance_tuple b).
    + destruct (unpack2 b) as [[key v] | e]; cbn [rbind] in H; [| discriminate].
      destruct (parts_setitem key v current) as [c' | e]; cbn [rbind] in H;
        [| discriminate].
      eapply IH; eassumption.
    + destruct (nonempty current).
      * destruct (_create_ai_message current) as [synth | e];
          cbn [rbind] in H; [| discriminate].
        eapply IH; eassumption.
      * eapply IH; eassumption.
Qed.

(** C4: in the loop over the candidate messages of an event there is one
    pending-fragment map; a complete message is appended only after the
    pending map, if any, has been flushed into a synthesized message that is
    appended before it; what is still pending at the end is flushed.  So the
    loop computes exactly the flush of the maximal fragment runs and the
    complete messages of the list, one output per segment, in order. *)
Theorem fragment_runs_flushed_in_order (new_messages : list value) :
  assemble new_messages = assemble_by_runs new_messages
  /\ (forall processed,
        assemble new_messages = Ok processed ->
        Forall2 flushed_as (segments new_messages) processed)
  /\ (forall before m after st,
        new_messages = before ++ m :: after ->
        isinstance_tuple m = false ->
        assemble_loop (before ++ [m]) [] [] = Ok st ->
        snd st = [] /\ exists front, fst st = front ++ [m]).
Proof.
  assert (E : assemble new_messages = assemble_by_runs new_messages).
  { rewrite assemble_final_flush.
    rewrite (assemble_loop_by_runs new_messages [] [] [] (Forall_nil _) eq_refl).
    unfold assemble_by_runs. cbn [app].
    destruct (rmap flush (segments new_messages)); reflexivity. }
  split; [exact E |]. split.
  - intros processed H. rewrite E in H. unfold assemble_by_runs in H.
    apply rmap_Forall2 in H.
    assert (Hne : forall fs, In (fragment_run fs) (segments new_messages) ->
                             fs <> [])
      by (intros fs; apply segments_runs_nonempty).
    induction H as [| seg m segs ms Hflush Hrest IH]; constructor.
    + destruct seg as [fs | c]; cbn [flush flushed_as] in *.
      * destruct (accumulate [] fs) as [d | e] eqn:Hd; cbn [rbind] in Hflush;
          [| discriminate].
        exists d. split; [reflexivity |]. split; [| exact Hflush].
        destruct fs as [| f fs']; [now elim (Hne [] (or_introl eq_refl)) |].
        now apply (accumulate_cons_nonempty f fs' []).
      * now injection Hflush as <-.
    + apply IH. intros fs Hin. apply Hne. now right.
  - intros before m after st _ Hm H.
    now apply (assemble_loop_after_complete m before [] [] st).
Qed.

End Assembler.

(** ** The non-streaming facade *)

Section Invoke.

Context {utils : ServiceUtils} {runtime : Runtime}.








End Invoke.

(** ** Sample runs *)

Lemma stream_ends_with_DONE_after_setup_witness :
  ends_with_one_DONE
    (frames (@message_generator reference_utils (sample_runtime sample_stream)
                                (ask_stream None) DEFAULT_AGENT)).
Proof.
  destruct (@stream_ends_with_DONE_after_setup
              reference_utils (sample_runtime sample_stream)
              (ask_stream None) DEFAULT_AGENT) as [H _].
  eapply H; vm_compute; reflexivity.
Defined.

(** A request that names an agent the registry does not have: the lookup
    raises before the guarded block is entered, nothing is yielded, and the
    stream does not end with the sentinel. *)
Lemma unknown_agent_stream_has_no_DONE :
  ~ ends_with_one_DONE
      (frames (@message_generator reference_utils (sample_runtime sample_stream)
                                  (ask_stream None) "no-such-agent")).
Proof.
  intros [body [H _]]. vm_compute in H.
  destruct body; discriminate.
Qed.

Lemma silent_sub_agent_ends_stream_witness :
  exists nu,
    Forall is_node_update nu
    /\ frames (@message_generator reference_utils
                                  (sample_runtime silent_expert_stream)
                                  (ask_stream None) DEFAULT_AGENT)
       = trace_frames [] ++ nu ++ [internal_server_error; DONE].
Proof.
  refine (proj2 (@silent_sub_agent_ends_stream
                   reference_utils (sample_runtime silent_expert_stream)
                   (ask_stream None) DEFAULT_AGENT _ _ _ _ [] []
                   [("math_expert", Dict [])] (item final_answer exhausted)
                   "math_expert" (Dict []) _ _ _ _ _ _ _)).
  - vm_compute; reflexivity.
  - vm_compute; reflexivity.
  - reflexivity.
  - reflexivity.
  - left; reflexivity.
  - reflexivity.
  - reflexivity.
Defined.



Lemma fragment_runs_flushed_in_order_witness :
  Forall2 (@flushed_as (sample_runtime exhausted))
          (segments sample_candidates)
          [ai "The weather in Tokyo"; ai "first"; ai "second"; ai "is sunny."].
Proof.
  apply (proj1 (proj2 (@fragment_runs_flushed_in_order
                         (sample_runtime exhausted) sample_candidates))).
  vm_compute. reflexivity.
Defined.




Lemma supervisor_surfaces_last_assistant_witness :
  node_messages
    ("supervisor",
     Dict [("messages", List_ [human QUESTION; ai "first"; ai "second"])])
  = Ok [ai "second"].
Proof.
  apply (proj1 (proj2 (@supervisor_surfaces_last_assistant
                         reference_utils (sample_runtime exhausted)
                         (ask_stream None) "run"
                         (Dict [("messages",
                                 List_ [human QUESTION; ai "first";
                                        ai "second"])]))
                      (List_ [human QUESTION; ai "first"; ai "second"])
                      [human QUESTION; ai "first"; ai "second"]
                      eq_refl eq_refl)).
Defined.


(** C2 (the code at the failing input): the request of
    [test_invoke_custom_agent_config], which carries the reserved key
    [model] in [agent_config] and no top-level model, is not refused: the
    engine is asked for the state and invoked with the model taken from
    [agent_config], and the answer is returned.  The same holds for
    [user_id], and for the same body sent to /stream. *)
Theorem reserved_key_reaches_engine :
  let run (config : list (string * value)) :=
    @invoke reference_utils
            (mock_runtime (mock_agent (Ok values_run) exhausted))
            (ask config) DEFAULT_AGENT in
  (outcome (run INVALID_CONFIG)
   = Ok (ChatMessage.set_run_id (ChatMessage.mk "ai" (Str ANSWER) [] None)
                                "847c6285-8fc9-4560-a83f-4e6285809254")
   /\ exists c,
       engine_calls (run INVALID_CONFIG)
       = [call_aget_state c;
          call_ainvoke {| input := fresh_messages QUESTION; config := c |}]
       /\ lookup "model" (configurable c) = Some (Str "gpt-4o"))
  /\ (outcome (run [("user_id", Str "someone-else")])
      = Ok (ChatMessage.set_run_id (ChatMessage.mk "ai" (Str ANSWER) [] None)
                                   "847c6285-8fc9-4560-a83f-4e6285809254")
      /\ exists c,
          engine_calls (run [("user_id", Str "someone-else")])
          = [call_aget_state c;
             call_ainvoke {| input := fresh_messages QUESTION; config := c |}]
          /\ lookup "user_id" (configurable c) = Some (Str "someone-else"))
  /\ (let streamed :=
        @message_generator
          reference_utils (sample_runtime (item final_answer exhausted))
          {| user := ask INVALID_CONFIG; stream_tokens := Some true;
             stream_node_updates := Some false |} DEFAULT_AGENT in
      outcome streamed = Ok tt
      /\ exists c k,
          engine_calls streamed = [call_aget_state c; call_astream k]
          /\ lookup "model" (configurable c) = Some (Str "gpt-4o")).
Proof.
  cbv zeta. split; [| split].
  - split; [vm_compute; reflexivity |].
    eexists; split; vm_compute; reflexivity.
  - split; [vm_compute; reflexivity |].
    eexists; split; vm_compute; reflexivity.
  - split; [vm_compute; reflexivity |].
    do 2 eexists; split; vm_compute; reflexivity.
Qed.

(** C3 (the code at the failing input): a node update whose value has no
    length (here the integer 0) ends the stream.  With node updates
    reported, the diagnostic frame raises, its fallback raises again, and
    the stream is the error frame and the sentinel: the message of the next
    event is never sent.  With node updates switched off the same engine
    stream is processed to its end. *)
Theorem unsized_update_ends_stream :
  frames (@message_generator reference_utils (sample_runtime unsized_stream)
                             (ask_stream None) DEFAULT_AGENT)
  = [internal_server_error; DONE]
  /\ frames (@message_generator reference_utils (sample_runtime unsized_stream)
                                (ask_stream (Some false)) DEFAULT_AGENT)
     = [Data "message"
             (model_dump
                (ChatMessage.set_run_id
                   (ChatMessage.mk "ai" (Str ANSWER) [] None)
                   "847c6285-8fc9-4560-a83f-4e6285809254"));
        DONE].
Proof. split; vm_compute; reflexivity. Qed.

(** * Further properties of the handlers *)

(** ** Dictionaries *)

Lemma lookup_setitem_same k v d : lookup k (setitem k v d) = Some v.
Proof.
  induction d as [| [k' v'] rest IH]; cbn [setitem lookup].
  - now rewrite String.eqb_refl.
  - destruct (String.eqb k k') eqn:E; cbn [lookup]; rewrite E; [reflexivity | exact IH].
Qed.

Lemma lookup_setitem_other k k' v d :
  String.eqb k k' = false -> lookup k (setitem k' v d) = lookup k d.
Proof.
  intros Hk. induction d as [| [k2 v2] rest IH]; cbn [setitem lookup].
  - now rewrite Hk.
  - destruct (String.eqb k' k2) eqn:E; cbn [lookup].
    + apply String.eqb_eq in E. subst k2. now rewrite Hk.
    + destruct (String.eqb k k2); [reflexivity | exact IH].
Qed.

Lemma has_key_cons k k' v rest :
  has_key k ((k', v) :: rest) = String.eqb k k' || has_key k rest.
Proof. unfold has_key. cbn [lookup]. now destruct (String.eqb k k'). Qed.

Lemma update_cons k v rest d :
  update d ((k, v) :: rest) = update (setitem k v d) rest.
Proof. reflexivity. Qed.

Lemma lookup_update_absent k other : forall d,
  has_key k other = false -> lookup k (update d other) = lookup k d.
Proof.
  induction other as [| [k' v'] rest IH]; intros d H.
  - reflexivity.
  - rewrite update_cons. rewrite has_key_cons in H.
    apply orb_false_iff in H. destruct H as [H1 H2].
    rewrite (IH _ H2). now apply lookup_setitem_other.
Qed.

Lemma has_key_In k (d : list (string * value)) :
  has_key k d = true <-> In k (keys d).
Proof.
  induction d as [| [k' v'] rest IH]; [now split |].
  rewrite has_key_cons. cbn [keys map fst In]. rewrite orb_true_iff, IH.
  rewrite String.eqb_eq. split; intros [H | H]; auto.
Qed.

Lemma lookup_update_present k v other : forall d,
  NoDup (keys other) -> lookup k other = Some v ->
  lookup k (update d other) = Some v.
Proof.
  induction other as [| [k' v'] rest IH]; intros d Hnd H; [discriminate |].
  rewrite update_cons. cbn [lookup] in H.
  cbn [keys map fst] in Hnd. inversion Hnd as [| ? ? Hnotin Hrest]; subst.
  destruct (String.eqb k k') eqn:E.
  - apply String.eqb_eq in E. subst k'. injection H as <-.
    assert (Ha : has_key k rest = false).
    { destruct (has_key k rest) eqn:Hk; [| reflexivity].
      apply has_key_In in Hk. contradiction. }
    rewrite (lookup_update_absent k rest _ Ha). apply lookup_setitem_same.
  - now apply IH.
Qed.

Section HandleInput.

Context {runtime : Runtime}.

Lemma handle_input_unfold user_input agent :
  _handle_input user_input agent
  = bind
      (if nonempty (agent_config user_input) then
         if nonempty (filter (fun k => has_key k (agent_config user_input))
                             (keys (base_configurable user_input)))
         then raise (HTTPException 422
                       (reserved_keys
                          (filter (fun k => has_key k (agent_config user_input))
                                  (keys (base_configurable user_input)))))
         else ret (update (base_configurable user_input)
                          (agent_config user_input))
       else ret (base_configurable user_input))
      (fun configurable =>
         let config :=
           {| configurable := configurable;
              run_id := uuid4_run;
              callbacks :=
                match get_langfuse_callback (user_id user_input)
                                            (resolved_thread_id user_input) with
                | Some h => Some [h]
                | None => None
                end |} in
         bind (await (call_aget_state config) (aget_state agent config))
              (fun tasks =>
                 ret ({| input :=
                           if nonempty (filter interrupted tasks)
                           then Command_resume (message user_input)
                           else fresh_messages (message user_input);
                         config := config |}, uuid4_run))).
Proof. reflexivity. Qed.

Lemma base_configurable_keys user_input :
  keys (base_configurable user_input) = present_keys user_input.
Proof.
  unfold base_configurable, present_keys, some_text.
  destruct (model user_input) as [m |]; [destruct (String.eqb m "") |];
    (destruct (user_id user_input) as [u |]; [destruct (String.eqb u "") |]);
    reflexivity.
Qed.

Lemma filter_nil_config (ks : list string) :
  filter (fun k => has_key k []) ks = [].
Proof. induction ks as [| k rest IH]; [reflexivity | exact IH]. Qed.

Lemma nonempty_filter_false {A} (f : A -> bool) xs :
  nonempty (filter f xs) = false -> forall x, In x xs -> f x = false.
Proof.
  induction xs as [| y rest IH]; intros H x Hin; [contradiction |].
  cbn [filter] in H. destruct (f y) eqn:E; [discriminate |].
  destruct Hin as [<- | Hin]; [exact E | now apply IH].
Qed.

(** What [_handle_input] has done when it returns. *)
Lemma handle_input_returns user_input agent t kw r :
  _handle_input user_input agent = (t, Ok (kw, r)) ->
  nonempty (filter (fun k => has_key k (agent_config user_input))
                   (present_keys user_input)) = false
  /\ exists tasks,
      let config :=
        {| configurable := update (base_configurable user_input)
                                  (agent_config user_input);
           run_id := uuid4_run;
           callbacks :=
             match get_langfuse_callback (user_id user_input)
                                         (resolved_thread_id user_input) with
             | Some h => Some [h]
             | None => None
             end |} in
      aget_state agent config = Ok tasks
      /\ kw = {| input := if nonempty (filter interrupted tasks)
                          then Command_resume (message user_input)
                          else fresh_messages (message user_input);
                 config := config |}
      /\ r = uuid4_run
      /\ t = [called (call_aget_state config)].
Proof.
  rewrite handle_input_unfold, base_configurable_keys.
  destruct (agent_config user_input) as [| kv rest] eqn:Hc.
  - cbn [nonempty bind ret update fold_left]. rewrite filter_nil_config.
    cbn [nonempty app].
    destruct (aget_state agent _) as [tasks | e] eqn:Ha;
      cbn [await]; intros H; [| discriminate].
    injection H as <- <- <-. split; [reflexivity |].
    exists tasks. cbn zeta. repeat split.
  - cbn [nonempty]. rewrite <- Hc.
    destruct (nonempty (filter _ (present_keys user_input))) eqn:Ho;
      [discriminate |].
    cbn [bind ret app].
    destruct (aget_state agent _) as [tasks | e] eqn:Ha;
      cbn [await]; intros H; [| discriminate].
    injection H as <- <- <-. split; [reflexivity |].
    exists tasks. cbn zeta. repeat split.
Qed.

Lemma base_configurable_thread_id user_input :
  lookup "thread_id" (base_configurable user_input)
  = Some (Str (resolved_thread_id user_input)).
Proof.
  unfold base_configurable.
  destruct (model user_input) as [m |]; [destruct (String.eqb m "") |];
    (destruct (user_id user_input) as [u |]; [destruct (String.eqb u "") |]);
    reflexivity.
Qed.

Lemma base_configurable_model user_input m :
  model user_input = Some m -> m <> "" ->
  lookup "model" (base_configurable user_input) = Some (Str m).
Proof.
  intros Hm Hne. apply String.eqb_neq in Hne.
  unfold base_configurable. rewrite Hm, Hne.
  destruct (user_id user_input) as [u |]; [destruct (String.eqb u "") |];
    reflexivity.
Qed.

Lemma base_configurable_user_id user_input u :
  user_id user_input = Some u -> u <> "" ->
  lookup "user_id" (base_configurable user_input) = Some (Str u).
Proof.
  intros Hu Hne. apply String.eqb_neq in Hne.
  unfold base_configurable. rewrite Hu, Hne.
  destruct (model user_input) as [m |]; [destruct (String.eqb m "") |];
    reflexivity.
Qed.

(** X1. [agent_config] is refused exactly when it shares a key with what
    the request has already put into [configurable]: the thread id always,
    the model and the user id only when the request carries a non-empty one.
    The refusal is a 422 that names the shared keys and comes before any
    engine call; otherwise the engine is asked once, for the state of the
    thread. *)
Theorem reserved_overlap_decides user_input agent :
  let overlap := filter (fun k => has_key k (agent_config user_input))
                        (present_keys user_input) in
  if nonempty overlap
  then _handle_input user_input agent
       = ([], Raise (HTTPException 422 (reserved_keys overlap)))
  else exists c,
      engine_calls (_handle_input user_input agent) = [call_aget_state c]
      /\ lookup "thread_id" (configurable c)
         = Some (Str (resolved_thread_id user_input)).
Proof.
  cbv zeta. rewrite handle_input_unfold, base_configurable_keys.
  set (config := fun configurable =>
         {| configurable := configurable;
            run_id := uuid4_run;
            callbacks :=
              match get_langfuse_callback (user_id user_input)
                                          (resolved_thread_id user_input) with
              | Some h => Some [h]
              | None => None
              end |}).
  destruct (agent_config user_input) as [| kv rest] eqn:Hc.
  - rewrite filter_nil_config. cbn [nonempty bind ret].
    exists (config (base_configurable user_input)). split.
    + destruct (aget_state agent _); reflexivity.
    + apply base_configurable_thread_id.
  - cbn [nonempty]. rewrite <- Hc.
    destruct (nonempty (filter _ (present_keys user_input))) eqn:Ho;
      [reflexivity |].
    cbn [bind ret].
    exists (config (update (base_configurable user_input)
                           (agent_config user_input))). split.
    + destruct (aget_state agent _); reflexivity.
    + assert (Ht : has_key "thread_id" (agent_config user_input) = false)
        by (apply (nonempty_filter_false _ _ Ho); now left).
      unfold config. cbn [configurable].
      rewrite (lookup_update_absent _ _ _ Ht).
      apply base_configurable_thread_id.
Qed.

(** X2. When [_handle_input] returns, the identifiers in the run
    configuration are those of the request and cannot have been changed by
    [agent_config]: the thread id is the request's, or a fresh one when the
    request has none; a non-empty model and user id of the request are there
    as given; the run id is the fresh one that is also returned. *)
Theorem accepted_request_keeps_identifiers user_input agent t kw r :
  _handle_input user_input agent = (t, Ok (kw, r)) ->
  r = uuid4_run
  /\ run_id (config kw) = uuid4_run
  /\ lookup "thread_id" (configurable (config kw))
     = Some (Str (resolved_thread_id user_input))
  /\ (forall m, model user_input = Some m -> m <> "" ->
                lookup "model" (configurable (config kw)) = Some (Str m))
  /\ (forall u, user_id user_input = Some u -> u <> "" ->
                lookup "user_id" (configurable (config kw)) = Some (Str u)).
Proof.
  intros H. destruct (handle_input_returns _ _ _ _ _ H)
    as (Ho & tasks & _ & -> & -> & _).
  pose proof (nonempty_filter_false _ _ Ho) as Hfree.
  cbn [config configurable run_id].
  split; [reflexivity |]. split; [reflexivity |]. split; [| split].
  - rewrite lookup_update_absent; [apply base_configurable_thread_id |].
    apply Hfree. now left.
  - intros m Hm Hne. rewrite lookup_update_absent;
      [now apply base_configurable_model |].
    apply Hfree. unfold present_keys, some_text. rewrite Hm.
    apply String.eqb_neq in Hne. rewrite Hne. cbn. auto.
  - intros u Hu Hne. rewrite lookup_update_absent;
      [now apply base_configurable_user_id |].
    apply Hfree. unfold present_keys, some_text. rewrite Hu.
    apply String.eqb_neq in Hne. rewrite Hne. cbn [negb].
    right. apply in_or_app. right. now left.
Qed.

(** X3. When [_handle_input] returns, every entry of [agent_config] is in
    the run configuration with its value ([agent_config] being a dictionary,
    its keys are distinct). *)
Theorem accepted_agent_config_is_passed user_input agent t kw r k v :
  _handle_input user_input agent = (t, Ok (kw, r)) ->
  NoDup (keys (agent_config user_input)) ->
  lookup k (agent_config user_input) = Some v ->
  lookup k (configurable (config kw)) = Some v.
Proof.
  intros H Hnd Hk. destruct (handle_input_returns _ _ _ _ _ H)
    as (_ & tasks & _ & -> & _ & _).
  cbn [config configurable]. now apply lookup_update_present.
Qed.

(** X4. [_handle_input] asks the engine once, for the state of the thread
    under the configuration it returns; the input it prepares is a resume
    command when some task of that state has pending interrupts and a fresh
    human message otherwise, and carries the message of the request either
    way. *)
Theorem pending_interrupts_route_to_resume user_input agent t kw r :
  _handle_input user_input agent = (t, Ok (kw, r)) ->
  t = [called (call_aget_state (config kw))]
  /\ exists tasks,
      aget_state agent (config kw) = Ok tasks
      /\ input kw = if existsb interrupted tasks
                    then Command_resume (message user_input)
                    else fresh_messages (message user_input).
Proof.
  intros H. destruct (handle_input_returns _ _ _ _ _ H)
    as (_ & tasks & Ha & -> & _ & ->).
  cbn [config input]. split; [reflexivity |].
  exists tasks. split; [exact Ha |].
  now rewrite nonempty_filter.
Qed.

End HandleInput.

(** ** The non-streaming facade: errors and what is looked at *)

Section InvokeExtras.

Context {utils : ServiceUtils} {runtime : Runtime}.

Lemma last_item_snoc xs x : last_item (List_ (xs ++ [x])) = Ok x.
Proof. cbn [last_item]. now rewrite rev_app_distr. Qed.

(** X5. Where the errors of [invoke] go.  A failed agent lookup and a failure
    of [_handle_input] (the 422 of a reserved key, an engine failure while
    the state is read) leave [invoke] as they are, and the engine is not
    invoked.  After that the engine is invoked exactly once, and whatever
    goes wrong from there on (the engine raising, an unusable result, a
    failed conversion) is answered by the one internal error, HTTP 500;
    what is returned otherwise carries the run id. *)
Theorem invoke_error_funnel user_input agent_id :
  (forall e, get_agent agent_id = Raise e ->
             invoke user_input agent_id = ([], Raise e))
  /\ (forall agent t e,
         get_agent agent_id = Ok agent ->
         _handle_input user_input agent = (t, Raise e) ->
         invoke user_input agent_id = (t, Raise e))
  /\ (forall agent t kw r,
         get_agent agent_id = Ok agent ->
         _handle_input user_input agent = (t, Ok (kw, r)) ->
         engine_calls (invoke user_input agent_id)
         = [call_aget_state (config kw); call_ainvoke kw]
         /\ frames (invoke user_input agent_id) = []
         /\ ((exists output,
                 outcome (invoke user_input agent_id) = Ok output
                 /\ ChatMessage.run_id output = Some r)
             \/ outcome (invoke user_input agent_id) = Raise unexpected_error)
         /\ (forall e, ainvoke agent kw = Raise e ->
                       outcome (invoke user_input agent_id)
                       = Raise unexpected_error)).
Proof.
  split; [| split].
  - intros e Ha. unfold invoke. now rewrite (bind_lift_Raise _ _ e Ha).
  - intros agent t e Ha Hi. unfold invoke.
    rewrite (bind_lift_Ok _ _ agent Ha). now rewrite (bind_Raise _ _ t e Hi).
  - intros agent t kw r Ha Hi.
    destruct (handle_input_returns _ _ _ _ _ Hi) as (_ & tasks & _ & Hkw & _ & Ht).
    assert (Htr : t = [called (call_aget_state (config kw))])
      by (rewrite Ht, Hkw; reflexivity).
    clear Ht Hkw. unfold invoke.
    rewrite (bind_lift_Ok _ _ agent Ha).
    rewrite (bind_Ok _ _ t (kw, r) Hi). subst t.
    unfold engine_calls, frames, outcome. cbn [fst snd].
    destruct (ainvoke agent kw) as [events | e0]; cbn.
    + destruct (extract_output events) as [output | e1]; cbn.
      * repeat split; try discriminate. left. eexists. split; reflexivity.
      * repeat split; try discriminate. now right.
    + repeat split. now right.
Qed.

(** X6. [invoke] looks at the last event of the run only, and in a "values"
    event at the last message only: what came before does not change the
    answer.  A run without events, or a "values" event without messages,
    makes the extraction raise [IndexError] (so the request ends in the
    internal error). *)
Theorem only_the_last_event_counts earlier ev :
  extract_output (List_ (earlier ++ [ev])) = extract_output (List_ [ev])
  /\ (forall others before m,
         ev = Tuple [Str "values";
                     Dict (("messages", List_ (before ++ [m])) :: others)] ->
         extract_output (List_ (earlier ++ [ev]))
         = langchain_to_chat_message m)
  /\ extract_output (List_ []) = Raise IndexError
  /\ (forall others,
         ev = Tuple [Str "values"; Dict (("messages", List_ []) :: others)] ->
         extract_output (List_ (earlier ++ [ev])) = Raise IndexError).
Proof.
  assert (E : extract_output (List_ (earlier ++ [ev]))
              = extract_output (List_ [ev])).
  { unfold extract_output. now rewrite last_item_snoc. }
  split; [exact E |]. split; [| split].
  - intros others before m ->. rewrite E. unfold extract_output.
    cbn [last_item rev app rbind unpack2 iter is_str String.eqb Ascii.eqb
         Bool.eqb getitem lookup].
    now rewrite rev_app_distr.
  - reflexivity.
  - intros others ->. rewrite E. reflexivity.
Qed.

End InvokeExtras.

(** ** The streaming reducer: what each option and each event does *)

Section StreamExtras.

Context {utils : ServiceUtils} {runtime : Runtime}.

Lemma node_update_frame_yields_tagged (P : frame -> Prop) run_id entry :
  (forall node has simplified,
      P (Data "node_update" (update_info node has simplified run_id))) ->
  (forall node has error,
      P (Data "node_update" (update_error node has error run_id))) ->
  yields_only P (node_update_frame run_id entry).
Proof.
  intros Hi He. destruct entry as [node updates]. unfold node_update_frame.
  apply yields_try_except.
  - apply yields_bind; [apply yields_lift |]. intros has.
    unfold dumps_node_update.
    destruct (json_serializable _); auto with yields.
  - intros _. auto with yields.
Qed.

Lemma emit_token_yields_requested (P : frame -> Prop)
      (user_input : StreamInput) event :
  (flag (stream_tokens user_input) = true ->
   forall s, P (Data "token" (plain s))) ->
  yields_only P (emit_token user_input event).
Proof.
  intros HP. destruct (flag (stream_tokens user_input)) eqn:E.
  - apply emit_token_yields. now apply HP.
  - unfold emit_token. rewrite E. apply yields_ret.
Qed.

(** The frames of one event, by the options of the request. *)
Lemma handle_event_yields_by_option (P : frame -> Prop)
      (user_input : StreamInput) run_id stream_event :
  (is_not_False (stream_node_updates user_input) = true ->
   forall node has simplified,
     P (Data "node_update" (update_info node has simplified run_id))) ->
  (is_not_False (stream_node_updates user_input) = true ->
   forall node has error,
     P (Data "node_update" (update_error node has error run_id))) ->
  P (Data "error" (plain "Unexpected error")) ->
  (flag (stream_tokens user_input) = true ->
   forall s, P (Data "token" (plain s))) ->
  (forall m, echoes user_input (Data "message" (model_dump m)) = false ->
             ChatMessage.run_id m = Some run_id ->
             P (Data "message" (model_dump m))) ->
  yields_only P (handle_event user_input run_id stream_event).
Proof.
  intros Hn Hf He Ht Hm. unfold handle_event.
  destruct (negb (isinstance_tuple stream_event)); [apply yields_ret |].
  apply yields_bind; [apply yields_lift |]. intros [stream_mode event].
  apply yields_bind.
  - destruct (is_str "updates" stream_mode); [| apply yields_ret].
    apply yields_bind.
    + destruct (is_not_False _); [| apply yields_ret].
      apply yields_bind; [apply yields_lift |]. intros entries.
      apply yields_for_each. intros entry.
      apply node_update_frame_yields_tagged; auto.
    + intros _. auto with yields.
  - intros new_messages.
    apply yields_bind; [apply yields_lift |]. intros processed_messages.
    apply yields_bind.
    + apply yields_for_each. intros msg. now apply emit_message_yields.
    + intros _. destruct (is_str "messages" stream_mode);
        [now apply emit_token_yields_requested | apply yields_ret].
Qed.

(** The frames of a whole stream, by the options of the request. *)
Lemma stream_yields_by_option (P : frame -> Prop)
      (user_input : StreamInput) agent_id :
  (is_not_False (stream_node_updates user_input) = true ->
   forall node has simplified,
     P (Data "node_update" (update_info node has simplified uuid4_run))) ->
  (is_not_False (stream_node_updates user_input) = true ->
   forall node has error,
     P (Data "node_update" (update_error node has error uuid4_run))) ->
  P (Data "error" (plain "Unexpected error")) ->
  (flag (stream_tokens user_input) = true ->
   forall s, P (Data "token" (plain s))) ->
  (forall m, echoes user_input (Data "message" (model_dump m)) = false ->
             ChatMessage.run_id m = Some uuid4_run ->
             P (Data "message" (model_dump m))) ->
  P internal_server_error ->
  P DONE ->
  yields_only P (message_generator user_input agent_id).
Proof.
  intros Hn Hf He Ht Hm Hi Hd. unfold yields_only.
  destruct (get_agent agent_id) as [agent | e] eqn:Ha.
  2: { destruct (message_generator_setup_raises user_input agent_id e
                   (or_introl Ha)) as [-> _]. constructor. }
  destruct (_handle_input user_input agent) as [t [[kw run] | e]] eqn:Hs.
  2: { destruct (message_generator_setup_raises user_input agent_id e) as [-> _];
       [right; now exists agent, t | constructor]. }
  destruct (message_generator_after_setup _ _ _ _ _ _ Ha Hs) as [-> _].
  destruct (handle_input_returns _ _ _ _ _ Hs) as (_ & tasks & _ & _ & -> & _).
  apply Forall_app. split.
  - unfold event_loop.
    apply yields_bind; [apply yields_await |]. intros _.
    apply yields_async_for. intros ev.
    now apply handle_event_yields_by_option.
  - apply Forall_app. split.
    + destruct (outcome _); repeat constructor. exact Hi.
    + repeat constructor. exact Hd.
Qed.

(** X7. Tokens are streamed only on request: with [stream_tokens] off (or
    absent) no frame of the stream is a [token] frame, whatever the engine
    sends. *)
Theorem tokens_only_on_request (user_input : StreamInput) agent_id :
  flag (stream_tokens user_input) = false ->
  Forall (fun f => is_token_frame f = false)
         (frames (message_generator user_input agent_id)).
Proof.
  intros Hoff. apply stream_yields_by_option; try reflexivity.
  rewrite Hoff. discriminate.
Qed.

(** X8. Node updates are reported unless [stream_node_updates] is false:
    with the option set to false no frame of the stream is a [node_update]
    frame. *)
Theorem node_updates_can_be_switched_off (user_input : StreamInput) agent_id :
  stream_node_updates user_input = Some false ->
  Forall (fun f => ~ is_node_update f)
         (frames (message_generator user_input agent_id)).
Proof.
  intros Hoff. apply stream_yields_by_option.
  - rewrite Hoff. discriminate.
  - rewrite Hoff. discriminate.
  - intros H. exact H.
  - intros _ s H. exact H.
  - intros m _ _ H. exact H.
  - intros H. exact H.
  - intros H. exact H.
Qed.

(** X9. Every frame of a stream that has a run id has the run id of the
    request: the [message] frames and the [node_update] frames all carry the
    identifier [_handle_input] generated. *)
Theorem frames_carry_the_run_id (user_input : StreamInput) agent_id :
  Forall (carries_run_id uuid4_run)
         (frames (message_generator user_input agent_id)).
Proof.
  apply stream_yields_by_option; try exact I; try reflexivity.
  intros m _ H. exact H.
Qed.

End StreamExtras.

Section StreamEvents.

Context {utils : ServiceUtils} {runtime : Runtime}.

Lemma bind_ret {A B} (a : A) (k : A -> Gen B) : bind (ret a) k = k a.
Proof. unfold bind, ret. now destruct (k a). Qed.

Lemma bind_lift_id {A} (g : Gen A) : bind g (fun a => ret a) = g.
Proof.
  destruct g as [t [a | e]]; cbn [bind ret]; [| reflexivity].
  now rewrite app_nil_r.
Qed.

Lemma assemble_nil : assemble [] = Ok [].
Proof. reflexivity. Qed.

Lemma handle_event_ignored (user_input : StreamInput) run_id stream_event :
  ignored_event stream_event = true ->
  handle_event user_input run_id stream_event = ret tt.
Proof.
  intros H. unfold handle_event.
  destruct stream_event; try reflexivity.
  destruct xs as [| stream_mode [| event [| x rest]]]; try discriminate.
  cbn [ignored_event] in H.
  apply andb_true_iff in H. destruct H as [H Hm].
  apply andb_true_iff in H. destruct H as [Hu Hc].
  apply negb_true_iff in Hu, Hc, Hm.
  cbn [isinstance_tuple negb unpack2 iter].
  rewrite (bind_lift_Ok (Ok (stream_mode, event)) _ _ eq_refl).
  rewrite Hu, Hc, Hm. reflexivity.
Qed.

(** X10. Events the reducer has no use for.  A stream event that is not a
    tuple, or a pair whose mode is none of "updates", "custom" and
    "messages", is passed over: the loop behaves as if the event had not
    been sent.  A tuple that is not a pair is not passed over: unpacking it
    raises [ValueError]. *)
Theorem ignored_events_change_nothing (user_input : StreamInput) run_id
        pre stream_event rest :
  (ignored_event stream_event = true ->
   async_for (prepend pre (item stream_event rest))
             (handle_event user_input run_id)
   = async_for (prepend pre rest) (handle_event user_input run_id))
  /\ (forall xs, stream_event = Tuple xs -> length xs <> 2 ->
                 handle_event user_input run_id stream_event
                 = raise ValueError).
Proof.
  split.
  - intros H. rewrite !async_for_prepend. cbn [async_for].
    now rewrite (handle_event_ignored _ _ _ H), bind_ret.
  - intros xs -> Hlen. unfold handle_event.
    cbn [isinstance_tuple negb unpack2 iter].
    destruct xs as [| a [| b [| c rest']]]; try reflexivity.
    now elim Hlen.
Qed.

Lemma messages_event_is_token_part (user_input : StreamInput) run_id payload :
  handle_event user_input run_id (Tuple [Str "messages"; payload])
  = emit_token user_input payload.
Proof.
  unfold handle_event. cbn [isinstance_tuple negb unpack2 iter].
  rewrite (bind_lift_Ok (Ok (Str "messages", payload)) _ _ eq_refl).
  cbn [is_str String.eqb Ascii.eqb Bool.eqb].
  rewrite bind_ret. rewrite (bind_lift_Ok (assemble []) _ [] eq_refl).
  cbn [for_each]. now rewrite bind_ret.
Qed.

(** X11. What a "messages" event can put on the stream: nothing, or one
    [token] frame.  It is nothing when the metadata tags contain
    "skip_stream", when the message is not an [AIMessageChunk] (a complete
    message re-sent by a node is dropped), and when the content is empty
    once the tool calls are removed; otherwise it is the text of that
    content. *)
Theorem messages_event_yields_one_token_at_most (user_input : StreamInput)
        run_id payload :
  let g := handle_event user_input run_id (Tuple [Str "messages"; payload]) in
  (frames g = [] \/ exists s, frames g = [Data "token" (plain s)])
  /\ (forall msg metadata tags,
         unpack2 payload = Ok (msg, metadata) ->
         get metadata "tags" (List_ []) = Ok tags ->
         (contains "skip_stream" tags = Ok true -> g = ret tt)
         /\ (contains "skip_stream" tags = Ok false ->
             isinstance_AIMessageChunk msg = false -> g = ret tt)
         /\ (forall c content,
                flag (stream_tokens user_input) = true ->
                contains "skip_stream" tags = Ok false ->
                isinstance_AIMessageChunk msg = true ->
                attr_content msg = Ok c ->
                remove_tool_calls c = Ok content ->
                (truthy content = false -> g = ret tt)
                /\ (forall s, truthy content = true ->
                              convert_message_content_to_string content = Ok s ->
                              g = yield (Data "token" (plain s))))).
Proof.
  cbv zeta. rewrite messages_event_is_token_part. unfold emit_token. split.
  - destruct (negb (flag (stream_tokens user_input))); [now left |].
    destruct (unpack2 payload) as [[msg metadata] | e]; [| now left].
    cbn [lift bind].
    destruct (get metadata "tags" (List_ [])) as [tags | e]; [| now left].
    destruct (contains "skip_stream" tags) as [[|] | e]; try now left.
    destruct (negb (isinstance_AIMessageChunk msg)); [now left |].
    destruct (attr_content msg) as [c | e]; [| now left].
    destruct (remove_tool_calls c) as [content | e]; [| now left].
    destruct (truthy content); [| now left].
    destruct (convert_message_content_to_string content) as [s | e];
      [right; now exists s | now left].
  - intros msg metadata tags Hu Hg.
    destruct (flag (stream_tokens user_input)) eqn:Hflag; cbn [negb].
    + rewrite Hu. cbn [lift bind]. rewrite Hg. split; [| split].
      * now intros ->.
      * intros -> ->. reflexivity.
      * intros c content _ -> -> -> ->. cbn. split.
        -- now intros ->.
        -- intros s -> ->. reflexivity.
    + split; [| split]; try reflexivity. discriminate.
Qed.



End StreamEvents.

Section NodeUpdates.

Context {utils : ServiceUtils} {runtime : Runtime}.

Lemma assemble_loop_complete ms : forall processed,
  Forall (fun m => isinstance_tuple m = false) ms ->
  assemble_loop ms processed [] = Ok (processed ++ ms, []).
Proof.
  induction ms as [| m rest IH]; intros processed Hall; cbn [assemble_loop].
  - now rewrite app_nil_r.
  - inversion Hall as [| ? ? Hm Hrest]; subst. rewrite Hm. cbn [nonempty].
    rewrite (IH _ Hrest). now rewrite <- app_assoc.
Qed.

Lemma assemble_complete ms :
  Forall (fun m => isinstance_tuple m = false) ms -> assemble ms = Ok ms.
Proof.
  intros Hall. unfold assemble.
  now rewrite (assemble_loop_complete ms [] Hall).
Qed.

Lemma emit_message_trace (user_input : StreamInput) run_id msg :
  emit_message user_input run_id msg
  = (map yielded (frames (emit_message user_input run_id msg)), Ok tt).
Proof.
  unfold emit_message.
  destruct (langchain_to_chat_message msg) as [cm | e]; [| reflexivity].
  destruct (_ && _); reflexivity.
Qed.

Lemma for_each_emit_message (user_input : StreamInput) run_id ms :
  for_each ms (emit_message user_input run_id)
  = (map yielded
         (flat_map (fun m => frames (emit_message user_input run_id m)) ms),
     Ok tt).
Proof.
  induction ms as [| m rest IH]; [reflexivity |].
  cbn [for_each flat_map]. rewrite IH.
  rewrite (emit_message_trace user_input run_id m) at 1.
  cbn [bind]. now rewrite map_app.
Qed.

Lemma trace_frames_yielded fs : trace_frames (map yielded fs) = fs.
Proof.
  induction fs as [| f rest IH]; [reflexivity |].
  cbn. now rewrite <- IH at 2.
Qed.

Lemma node_messages_plain node updates :
  plain_node node = true ->
  node_messages (node, updates)
  = (update_messages <- update_messages_of updates ;; iter update_messages)%res.
Proof.
  unfold plain_node. intros H.
  apply andb_true_iff in H. destruct H as [H Hx].
  apply andb_true_iff in H. destruct H as [Hi Hs].
  apply negb_true_iff in Hi, Hs, Hx.
  unfold node_messages, update_messages_of. rewrite Hi, Hs, Hx.
  destruct (get _ "messages" (List_ [])); reflexivity.
Qed.

(** X13. The update of a node without special case, message by message.
    When the messages of the update are complete messages, the event puts
    on the stream the diagnostic frame (if node updates are reported) and
    then, for each message in order, one frame: its [message] frame, or the
    frame of an "Unexpected error" when its conversion failed; a human
    message that repeats the input gets no frame.  A failed conversion does
    not keep the later messages from being sent, and the event does not end
    the stream. *)
Theorem plain_node_update_frames (user_input : StreamInput) run_id
        node updates has l ms :
  plain_node node = true ->
  has_updates_of updates = Ok has ->
  update_messages_of updates = Ok l ->
  iter l = Ok ms ->
  Forall (fun m => isinstance_tuple m = false) ms ->
  let g := handle_event user_input run_id (updates_event [(node, updates)]) in
  outcome g = Ok tt
  /\ frames g
     = (if is_not_False (stream_node_updates user_input)
        then [Data "node_update"
                   (update_info node has (_simplify_node_updates updates)
                                run_id)]
        else [])
       ++ flat_map (fun m => frames (emit_message user_input run_id m)) ms
  /\ (forall m,
         frames (emit_message user_input run_id m)
         = match langchain_to_chat_message m with
           | Raise _ => [Data "error" (plain "Unexpected error")]
           | Ok cm =>
               let cm := ChatMessage.set_run_id cm run_id in
               if echoes user_input (Data "message" (model_dump cm))
               then []
               else [Data "message" (model_dump cm)]
           end).
Proof.
  intros Hplain Hhas Hl Hms Hall g.
  assert (Hg : g = ((if is_not_False (stream_node_updates user_input)
                     then [yielded
                             (Data "node_update"
                                   (update_info node has
                                                (_simplify_node_updates updates)
                                                run_id))]
                     else [])
                    ++ map yielded
                         (flat_map
                            (fun m => frames (emit_message user_input run_id m))
                            ms),
                    Ok tt)).
  { unfold g, handle_event, updates_event.
    cbn [isinstance_tuple negb unpack2 iter].
    rewrite (bind_lift_Ok (Ok (Str "updates", Dict [(node, updates)])) _ _
                          eq_refl).
    cbn [is_str String.eqb Ascii.eqb Bool.eqb items].
    assert (Hc : collect_messages [(node, updates)] = Ok ms).
    { cbn [collect_messages]. rewrite (node_messages_plain _ _ Hplain), Hl.
      cbn [rbind]. rewrite Hms. cbn [rbind]. now rewrite app_nil_r. }
    destruct (is_not_False (stream_node_updates user_input)).
    - rewrite (bind_lift_Ok (Ok [(node, updates)]) _ _ eq_refl).
      cbn [for_each]. rewrite (node_update_frame_sized _ _ _ _ Hhas).
      cbn [bind ret lift]. rewrite Hc, (assemble_complete ms Hall).
      rewrite for_each_emit_message. cbn. now rewrite !app_nil_r.
    - cbn [bind ret lift]. rewrite Hc, (assemble_complete ms Hall).
      rewrite for_each_emit_message. cbn. now rewrite !app_nil_r. }
  split; [now rewrite Hg |]. split.
  - rewrite Hg. unfold frames. cbn [fst]. rewrite trace_frames_app.
    rewrite trace_frames_yielded.
    destruct (is_not_False (stream_node_updates user_input)); reflexivity.
  - intros m. unfold emit_message.
    destruct (langchain_to_chat_message m) as [cm | e]; [| reflexivity].
    cbn zeta. unfold echoes.
    destruct (_ && _); reflexivity.
Qed.




End NodeUpdates.

(** ** The simplified form of a node update *)





Lemma simplify_fold_lookup k kvs : forall result,
  NoDup (keys kvs) ->
  String.eqb k "messages" = false ->
  lookup k
    (fold_left
       (fun result kv =>
          let '(key, v) := kv in
          if String.eqb key "messages" then result
          else if json_serializable v then setitem key v result
          else setitem key (complex_data v) result)
       kvs result)
  = match lookup k kvs with
    | Some v => Some (if json_serializable v then v else complex_data v)
    | None => lookup k result
    end.
Proof.
  induction kvs as [| [key v] rest IH]; intros result Hnd Hk;
    cbn [fold_left lookup].
  - reflexivity.
  - cbn [keys map fst] in Hnd. inversion Hnd as [| ? ? Hnotin Hrest]; subst.
    rewrite (IH _ Hrest Hk).
    destruct (String.eqb k key) eqn:E.
    + apply String.eqb_eq in E. subst key. rewrite Hk.
      assert (Hn : lookup k rest = None).
      { destruct (lookup k rest) eqn:L; [| reflexivity].
        exfalso. apply Hnotin. apply has_key_In. unfold has_key. now rewrite L. }
      rewrite Hn.
      destruct (json_serializable v); now rewrite lookup_setitem_same.
    + destruct (lookup k rest); [reflexivity |].
      destruct (String.eqb key "messages"); [reflexivity |].
      destruct (json_serializable v); now apply lookup_setitem_other.
Qed.


(** X16. In the simplified form of a dictionary every entry other than
    "messages" keeps its value when the value can be dumped, and otherwise
    holds the placeholder that names the type of the value. *)
Theorem simplified_update_keeps_plain_values kvs k v :
  NoDup (keys kvs) ->
  k <> "messages" ->
  lookup k kvs = Some v ->
  lookup k (_simplify_node_updates (Dict kvs))
  = Some (if json_serializable v then v
          else Str ("[Complex data: " ++ type_name v ++ "]")%string).
Proof.
  intros Hnd Hk Hl. apply String.eqb_neq in Hk.
  cbn [_simplify_node_updates].
  rewrite (simplify_fold_lookup k kvs _ Hnd Hk), Hl. reflexivity.
Qed.


(** ** The content of a message as text *)

Lemma join_parts_strings ss : join_parts (map Str ss) = Ok ss.
Proof.
  induction ss as [| s rest IH]; [reflexivity |].
  cbn [map join_parts]. now rewrite IH.
Qed.

Lemma flat_map_content_part_strings ss :
  flat_map content_part (map Str ss) = map Str ss.
Proof.
  induction ss as [| s rest IH]; [reflexivity |].
  cbn [map flat_map content_part app]. now rewrite IH.
Qed.

Lemma join_parts_raises xs x ys :
  (forall s, x <> Str s) -> join_parts (xs ++ x :: ys) = Raise TypeError.
Proof.
  intros Hx. induction xs as [| a rest IH]; cbn [app join_parts].
  - destruct x; try reflexivity. now elim (Hx s).
  - destruct a; try reflexivity. now rewrite IH.
Qed.

(** X18. [_get_message_content] on a message whose content is a list of
    parts: text parts are joined by single spaces; a part that is neither
    text nor a dictionary with a "text" entry is left out; a dictionary
    whose "text" is not text makes the whole content "[Complex content]". *)
Theorem message_content_joins_text_parts cls name id :
  (forall ss,
      _get_message_content (Message cls (Parts (map Str ss)) name id)
      = String.concat " " ss)
  /\ (forall before part after,
         content_part part = [] ->
         _get_message_content
           (Message cls (Parts (before ++ part :: after)) name id)
         = _get_message_content (Message cls (Parts (before ++ after)) name id))
  /\ (forall before entries t after,
         lookup "text" entries = Some t ->
         (forall s, t <> Str s) ->
         _get_message_content
           (Message cls (Parts (before ++ Dict entries :: after)) name id)
         = "[Complex content]").
Proof.
  split; [| split].
  - intros ss. cbn [_get_message_content].
    now rewrite flat_map_content_part_strings, join_parts_strings.
  - intros before part after Hp. cbn [_get_message_content].
    rewrite !flat_map_app. cbn [flat_map]. now rewrite Hp.
  - intros before entries t after Hl Ht. cbn [_get_message_content].
    rewrite flat_map_app. cbn [flat_map content_part]. rewrite Hl.
    cbn [app]. now rewrite (join_parts_raises _ t _ Ht).
Qed.

(** ** Fragments and the message built from them *)

Section FragmentExtras.

Context {runtime : Runtime}.

Lemma key_eqb_valid a b :
  key_eqb a b = true -> in_valid_keys a = in_valid_keys b.
Proof.
  destruct a, b; cbn [key_eqb in_valid_keys]; try discriminate;
    try reflexivity.
  intros E. apply String.eqb_eq in E. now subst.
Qed.

Lemma filter_parts_put k v d :
  filter (fun kv => in_valid_keys (fst kv)) (parts_put k v d)
  = if in_valid_keys k
    then parts_put k v (filter (fun kv => in_valid_keys (fst kv)) d)
    else filter (fun kv => in_valid_keys (fst kv)) d.
Proof.
  induction d as [| [k' v'] rest IH]; cbn [parts_put filter fst].
  - destruct (in_valid_keys k); reflexivity.
  - destruct (key_eqb k k') eqn:E; cbn [filter fst].
    + rewrite <- (key_eqb_valid _ _ E).
      destruct (in_valid_keys k); cbn [parts_put]; [now rewrite E | reflexivity].
    + rewrite IH.
      destruct (in_valid_keys k'), (in_valid_keys k); cbn [parts_put];
        rewrite ?E; reflexivity.
Qed.





Lemma parts_find_put k v d : parts_find k (parts_put (Str k) v d) = Some v.
Proof.
  induction d as [| [k' v'] rest IH]; cbn [parts_put parts_find].
  - cbn [is_str]. now rewrite String.eqb_refl.
  - destruct (key_eqb (Str k) k') eqn:E; cbn [parts_find].
    + destruct k'; try discriminate. cbn [key_eqb] in E. cbn [is_str].
      now rewrite String.eqb_sym, E.
    + destruct k'; cbn [is_str]; try exact IH. cbn [key_eqb] in E.
      now rewrite String.eqb_sym, E.
Qed.

Lemma as_content_value v body : as_content v = Ok body -> content_value body = v.
Proof. destruct v; try discriminate; now intros [= <-]. Qed.

(** X20. The last write wins.  When a run of fragments ends with a
    fragment for "content", the synthesized message has that content,
    whatever content the earlier fragments of the run carried. *)
Theorem last_content_fragment_wins fs v m :
  in_valid_keys (Str "content") = true ->
  flush (fragment_run (fs ++ [Tuple [Str "content"; v]])) = Ok m ->
  attr_content m = Ok v.
Proof.
  intros Hvalid. cbn [flush]. rewrite accumulate_app.
  destruct (accumulate [] fs) as [d | e]; cbn [rbind]; [| discriminate].
  cbn [accumulate unpack2 iter rbind parts_setitem hashable].
  unfold _create_ai_message. rewrite filter_parts_put, Hvalid.
  unfold AIMessage_from_kwargs. rewrite parts_find_put.
  destruct (as_content v) as [body | e] eqn:Hb; cbn [rbind]; [| discriminate].
  apply as_content_value in Hb.
  destruct (parts_find "type" _) as [t |];
    [destruct (is_str "ai" t); cbn [rbind]; [| discriminate] | cbn [rbind]];
    (destruct (parts_find "name" _) as [[]|]; try discriminate;
     intros [= <-]; cbn [attr_content]; now rewrite Hb).
Qed.


End FragmentExtras.

(** ** The other endpoints *)

Lemma find_agent_graphs agent_id registered g :
  find_agent agent_id (graphs registered) = Ok g ->
  exists agent, In (agent_id, agent) registered /\ graph agent = g.
Proof.
  induction registered as [| [k a] rest IH]; cbn [graphs map find_agent].
  - discriminate.
  - destruct (String.eqb agent_id k) eqn:E.
    + intros [= <-]. apply String.eqb_eq in E. subst k.
      exists a. split; [now left | reflexivity].
    + intros H. destruct (IH H) as (agent & Hin & Hg).
      exists agent. split; [now right | exact Hg].
Qed.

Lemma find_agent_listed agent_id registered :
  (exists g, find_agent agent_id (graphs registered) = Ok g)
  <-> In agent_id (map key (get_all_agent_info registered)).
Proof.
  induction registered as [| [k a] rest IH];
    cbn [graphs get_all_agent_info map find_agent key].
  - split; [intros [g H]; discriminate | intros []].
  - destruct (String.eqb agent_id k) eqn:E.
    + apply String.eqb_eq in E. subst k. split; [now left | now exists (graph a)].
    + apply String.eqb_neq in E. rewrite IH. split; [now right |].
      intros [H | H]; [congruence | exact H].
Qed.

Lemma find_agent_unlisted agent_id registry :
  (exists g, find_agent agent_id registry = Ok g)
  \/ find_agent agent_id registry = Raise KeyError.
Proof.
  induction registry as [| [k a] rest IH]; cbn [find_agent].
  - now right.
  - destruct (String.eqb agent_id k); [left; now exists a | exact IH].
Qed.

Section EndpointExtras.

Context {utils : ServiceUtils} {settings : Settings} {env : Environ}
        {telemetry : Telemetry} {checkpoints : Checkpoints}.

(** X22. The agents [get_agent] finds are exactly the ones /info lists: with
    the registry [agents] of agents.py, [get_agent k] returns a graph if and
    only if [k] is the key of an entry of [get_all_agent_info], the graph is
    the one of an entry registered under [k], and every other id raises
    [KeyError]. *)
Theorem listed_agents_are_the_served_ones
        (runtime : Runtime) (registered : list (string * Agent)) agent_id :
  agents = graphs registered ->
  ((exists g, get_agent agent_id = Ok g)
   <-> In agent_id (map key (get_all_agent_info registered)))
  /\ (forall g, get_agent agent_id = Ok g ->
        exists agent, In (agent_id, agent) registered /\ graph agent = g)
  /\ (~ In agent_id (map key (get_all_agent_info registered)) ->
      get_agent agent_id = Raise KeyError).
Proof.
  intros Hreg. unfold get_agent. rewrite Hreg. split; [| split].
  - apply find_agent_listed.
  - intros g. apply find_agent_graphs.
  - intros Hnot.
    destruct (find_agent_unlisted agent_id (graphs registered)) as [H | H];
      [| exact H].
    apply find_agent_listed in H. contradiction.
Qed.

(** X23. [verify_bearer] lets a request through exactly when no non-empty
    secret is configured or the request carries credentials equal to the
    secret; every other request gets the 401, whatever its scheme. *)
Theorem bearer_check_decides
        (http_auth : option HTTPAuthorizationCredentials) :
  (verify_bearer http_auth = Ok tt
   <-> some_text AUTH_SECRET = false
       \/ exists auth, http_auth = Some auth
                       /\ AUTH_SECRET = Some (credentials auth))
  /\ (verify_bearer http_auth = Ok tt
      \/ verify_bearer http_auth = Raise unauthorized).
Proof.
  unfold verify_bearer.
  destruct AUTH_SECRET as [secret |] eqn:Hs; cbn [some_text negb].
  2: { split; [split; [now left | reflexivity] | now left]. }
  destruct (String.eqb secret "") eqn:Hempty; cbn [negb].
  { split; [split; [now left | reflexivity] | now left]. }
  destruct http_auth as [auth |].
  2: { split; [| now right]. split; [discriminate |].
       intros [H | (auth & H & _)]; discriminate. }
  destruct (String.eqb (credentials auth) secret) eqn:Heq; cbn [negb].
  - apply String.eqb_eq in Heq. split; [| now left].
    split; [| reflexivity]. intros _. right. exists auth. now rewrite Heq.
  - apply String.eqb_neq in Heq. split; [| now right].
    split; [discriminate |].
    intros [H | (auth' & [= <-] & [= H])]; [discriminate | congruence].
Qed.

Section Routed.

Context {runtime : Runtime}.

Variable registered : list (string * Agent).

(** X24. With a secret configured, a request without credentials or with
    other credentials reaches no endpoint of the router: it is answered by
    the 401 and nothing is called (no engine, no persisted state, no
    telemetry); /health alone answers, and answers ok. *)
Theorem unauthenticated_request_reaches_only_health
        (http_auth : option HTTPAuthorizationCredentials) secret req :
  AUTH_SECRET = Some secret ->
  secret <> "" ->
  (forall auth, http_auth = Some auth -> credentials auth <> secret) ->
  service_app registered http_auth req
  = match req with
    | GET_health => ([], Ok (health_response "ok"))
    | _ => ([], Raise unauthorized)
    end.
Proof.
  intros Hs Hne Hbad.
  assert (Hv : verify_bearer http_auth = Raise unauthorized).
  { unfold verify_bearer. rewrite Hs. cbn [some_text negb].
    apply String.eqb_neq in Hne. rewrite Hne. cbn [negb].
    destruct http_auth as [auth |]; [| reflexivity].
    specialize (Hbad auth eq_refl). apply String.eqb_neq in Hbad.
    now rewrite Hbad. }
  unfold service_app.
  destruct req; cbn [on_router endpoint]; try reflexivity;
    rewrite Hv; reflexivity.
Qed.

(** X25. /history reads the persisted state once, of the default agent and
    by the thread id alone, and is all or nothing: it answers with the
    conversions of all the stored messages, in their order, or, whatever
    fails after the agent was found (the read, a state without messages, the
    conversion of one message), with the 500 [Unexpected error]. *)
Theorem history_is_all_or_nothing thread agent :
  get_agent DEFAULT_AGENT = Ok agent ->
  let configurable := [("thread_id", Str thread)] in
  fst (history thread) = [get_state_call configurable]
  /\ (snd (history thread) = Raise unexpected_error
      \/ exists values messages ms chat_messages,
           get_state agent configurable = Ok values
           /\ getitem values "messages" = Ok messages
           /\ iter messages = Ok ms
           /\ Forall2 (fun m cm => langchain_to_chat_message m = Ok cm)
                      ms chat_messages
           /\ snd (history thread) = Ok (ChatHistory chat_messages)).
Proof.
  intros Ha configurable. unfold history. rewrite Ha.
  cbn [app_lift app_bind app]. fold configurable.
  unfold app_call.
  destruct (get_state agent configurable) as [values | e] eqn:Hst;
    cbn [app_bind app_try_except app_raise app_lift fst snd app].
  2: { split; [reflexivity | now left]. }
  destruct (getitem values "messages") as [messages | e] eqn:Hg; cbn [rbind].
  2: { split; [reflexivity | now left]. }
  destruct (iter messages) as [ms | e] eqn:Hi; cbn [rbind].
  2: { split; [reflexivity | now left]. }
  destruct (rmap langchain_to_chat_message ms) as [cms | e] eqn:Hr; cbn [rbind].
  2: { split; [reflexivity | now left]. }
  split; [reflexivity |]. right. exists values, messages, ms, cms.
  repeat split; try assumption.
  clear Hi. revert cms Hr.
  induction ms as [| m ms IH]; cbn [rmap]; intros cms Hr.
  - injection Hr as <-. constructor.
  - destruct (langchain_to_chat_message m) as [cm | e] eqn:Hm; cbn [rbind] in Hr;
      [| discriminate].
    destruct (rmap langchain_to_chat_message ms) as [cms' | e] eqn:Hr';
      cbn [rbind] in Hr; [| discriminate].
    injection Hr as <-. constructor; [exact Hm | now apply IH].
Qed.

(** X26. /feedback without a Langfuse public key or secret key (neither in
    the environment nor in the settings, an empty one counting as none)
    calls nothing and answers 500; the 500 raised for the missing
    credentials is caught by the handler's own [except] and comes out
    wrapped, its detail being the text of that exception behind
    [Error recording feedback: ]. *)
Theorem feedback_without_credentials fb :
  some_text (or_else (environ_get "LANGFUSE_PUBLIC_KEY") LANGFUSE_PUBLIC_KEY)
  && some_text (or_else (environ_get "LANGFUSE_SECRET_KEY") LANGFUSE_SECRET_KEY)
  = false ->
  feedback fb
  = ([], Raise (HTTPException 500
                  (detail_text ("Error recording feedback: "
                                ++ exception_text credentials_not_found)%string))).
Proof.
  intros H. unfold feedback.
  destruct (some_text (or_else (environ_get "LANGFUSE_PUBLIC_KEY") _));
    [destruct (some_text (or_else (environ_get "LANGFUSE_SECRET_KEY") _));
     [discriminate |] |]; reflexivity.
Qed.

(** X27. /feedback answers [success] exactly when the client was made and
    the score was sent, in which case these are its only two calls and the
    score is filed under the run id of the feedback, named by its key, with
    its score; every other outcome is a 500 whose detail starts with
    [Error recording feedback: ], and nothing is sent twice. *)
Theorem feedback_scores_the_run fb :
  (snd (feedback fb) = Ok (FeedbackResponse "success")
   \/ exists e,
       snd (feedback fb)
       = Raise (HTTPException 500
                  (detail_text ("Error recording feedback: "
                                ++ exception_text e)%string)))
  /\ (forall r, snd (feedback fb) = Ok r ->
        r = FeedbackResponse "success"
        /\ exists public_key secret_key host s,
             fst (feedback fb)
             = [Langfuse_call public_key secret_key host; score_call s]
             /\ public_key <> "" /\ secret_key <> "" /\ host <> ""
             /\ Langfuse public_key secret_key host = Ok tt
             /\ Langfuse_score s = Ok tt
             /\ trace_id s = Feedback.run_id fb
             /\ name s = Feedback.key fb
             /\ score_value s = Feedback.score fb
             /\ score_id s = uuid4_score)
  /\ (length (fst (feedback fb)) <= 2)%nat.
Proof.
  unfold feedback.
  set (pk := or_else (environ_get "LANGFUSE_PUBLIC_KEY") LANGFUSE_PUBLIC_KEY).
  set (sk := or_else (environ_get "LANGFUSE_SECRET_KEY") LANGFUSE_SECRET_KEY).
  set (host := text_of (or_else _ (Some "https://cloud.langfuse.com"))).
  assert (Hhost : host <> "").
  { subst host. unfold or_else at 1.
    destruct (some_text (or_else (environ_get "LANGFUSE_HOST") LANGFUSE_HOST))
      eqn:E.
    - destruct (or_else (environ_get "LANGFUSE_HOST") LANGFUSE_HOST) as [h |];
        cbn [some_text] in E; [| discriminate].
      cbn [text_of]. intros ->. discriminate.
    - cbn [text_of]. discriminate. }
  clearbody host.
  assert (Htext : forall o, some_text o = true -> text_of o <> "").
  { intros [s |]; cbn [some_text text_of]; [| discriminate].
    intros E ->. discriminate. }
  destruct (some_text pk) eqn:Hpk; cbn [negb orb].
  2: { cbn. split; [right; eexists; reflexivity |].
       split; [discriminate | lia]. }
  destruct (some_text sk) eqn:Hsk; cbn [negb orb].
  2: { cbn. split; [right; eexists; reflexivity |].
       split; [discriminate | lia]. }
  unfold app_call.
  destruct (Langfuse (text_of pk) (text_of sk) host) as [[] | e] eqn:HL;
    cbn [app_bind app_try_except app_raise app fst snd length].
  2: { split; [right; eexists; reflexivity |].
       split; [discriminate | lia]. }
  match goal with
  | |- context [Langfuse_score ?s] =>
      set (sent := s); destruct (Langfuse_score sent) as [[] | e] eqn:HS
  end; cbn [app_bind app_try_except app_raise app_ret app fst snd length].
  2: { split; [right; eexists; reflexivity |].
       split; [discriminate | lia]. }
  split; [now left |]. split; [| lia].
  intros r [= <-]. split; [reflexivity |].
  exists (text_of pk), (text_of sk), host, sent.
  repeat split; auto.
Qed.

End Routed.

End EndpointExtras.

(** ** Sample requests for the properties above *)

Lemma accepted_request_keeps_identifiers_witness :
  exists kw,
    outcome (@_handle_input (mock_runtime (mock_agent (Ok values_run) exhausted))
                            sample_request
                            (mock_agent (Ok values_run) exhausted))
    = Ok (kw, "847c6285-8fc9-4560-a83f-4e6285809254")
    /\ lookup "thread_id" (configurable (config kw)) = Some (Str "thread-1").
Proof.
  eexists. split; [reflexivity |].
  exact (proj1 (proj2 (proj2
    (@accepted_request_keeps_identifiers
       (mock_runtime (mock_agent (Ok values_run) exhausted))
       sample_request (mock_agent (Ok values_run) exhausted) _ _ _ eq_refl)))).
Defined.

Lemma accepted_agent_config_is_passed_witness :
  exists kw,
    outcome (@_handle_input (mock_runtime (mock_agent (Ok values_run) exhausted))
                            sample_request
                            (mock_agent (Ok values_run) exhausted))
    = Ok (kw, "847c6285-8fc9-4560-a83f-4e6285809254")
    /\ lookup "spicy_level" (configurable (config kw)) = Some (Int 1).
Proof.
  eexists. split; [reflexivity |].
  refine (@accepted_agent_config_is_passed
            (mock_runtime (mock_agent (Ok values_run) exhausted))
            sample_request (mock_agent (Ok values_run) exhausted) _ _ _
            "spicy_level" (Int 1) eq_refl _ eq_refl).
  repeat constructor. intros [].
Defined.

Lemma pending_interrupts_route_to_resume_witness :
  exists kw,
    outcome (@_handle_input (mock_runtime (mock_agent (Ok values_run) exhausted))
                            sample_request
                            (mock_agent (Ok values_run) exhausted))
    = Ok (kw, "847c6285-8fc9-4560-a83f-4e6285809254")
    /\ input kw = fresh_messages QUESTION.
Proof.
  eexists. split; [reflexivity |].
  destruct (proj2 (@pending_interrupts_route_to_resume
                     (mock_runtime (mock_agent (Ok values_run) exhausted))
                     sample_request (mock_agent (Ok values_run) exhausted)
                     _ _ _ eq_refl)) as (tasks & Hstate & Hinput).
  cbn in Hstate. injection Hstate as <-. exact Hinput.
Defined.

Lemma invoke_error_funnel_witness :
  @invoke reference_utils (mock_runtime (mock_agent (Ok values_run) exhausted))
          (ask []) "no-such-agent"
  = ([], Raise KeyError).
Proof.
  apply (proj1 (@invoke_error_funnel
                  reference_utils
                  (mock_runtime (mock_agent (Ok values_run) exhausted))
                  (ask []) "no-such-agent")).
  reflexivity.
Defined.

Lemma only_the_last_event_counts_witness :
  @extract_output reference_utils
    (List_ ([updates_event []]
            ++ [Tuple [Str "values";
                       Dict [("messages",
                              List_ ([human QUESTION] ++ [ai ANSWER]))]]]))
  = to_chat_message (ai ANSWER).
Proof.
  apply (proj1 (proj2 (@only_the_last_event_counts
                         reference_utils [updates_event []] _))
               [] [human QUESTION] (ai ANSWER)).
  reflexivity.
Defined.

Lemma tokens_only_on_request_witness :
  Forall (fun f => is_token_frame f = false)
         (frames (@message_generator reference_utils
                                     (sample_runtime token_stream)
                                     ask_quietly DEFAULT_AGENT)).
Proof.
  apply (@tokens_only_on_request reference_utils (sample_runtime token_stream)
                                 ask_quietly DEFAULT_AGENT).
  reflexivity.
Defined.

Lemma node_updates_can_be_switched_off_witness :
  Forall (fun f => ~ is_node_update f)
         (frames (@message_generator reference_utils
                                     (sample_runtime sample_stream)
                                     (ask_stream (Some false)) DEFAULT_AGENT)).
Proof.
  apply (@node_updates_can_be_switched_off
           reference_utils (sample_runtime sample_stream)
           (ask_stream (Some false)) DEFAULT_AGENT).
  reflexivity.
Defined.

Lemma ignored_events_change_nothing_witness :
  async_for (prepend [final_answer]
                     (item (Tuple [Str "debug"; Dict []]) exhausted))
            (@handle_event reference_utils (sample_runtime exhausted)
                           (ask_stream None) "run")
  = async_for (prepend [final_answer] exhausted)
              (@handle_event reference_utils (sample_runtime exhausted)
                             (ask_stream None) "run").
Proof.
  apply (proj1 (@ignored_events_change_nothing
                  reference_utils (sample_runtime exhausted)
                  (ask_stream None) "run" [final_answer]
                  (Tuple [Str "debug"; Dict []]) exhausted)).
  reflexivity.
Defined.

Lemma messages_event_yields_one_token_at_most_witness :
  @handle_event reference_utils (sample_runtime exhausted) (ask_stream None)
                "run" (token_event "The")
  = yield (Data "token" (plain "The")).
Proof.
  refine (proj2 (proj2 (proj2 (proj2
            (@messages_event_yields_one_token_at_most
               reference_utils (sample_runtime exhausted) (ask_stream None)
               "run"
               (Tuple [Message AIMessageChunk (Text "The") None None; Dict []]))
            (Message AIMessageChunk (Text "The") None None) (Dict [])
            (List_ []) eq_refl eq_refl))
          (Str "The") (Str "The") eq_refl eq_refl eq_refl eq_refl eq_refl)
          "The" eq_refl eq_refl).
Defined.


Lemma plain_node_update_frames_witness :
  outcome (@handle_event reference_utils (sample_runtime exhausted)
                         (ask_stream None) "run" final_answer)
  = Ok tt.
Proof.
  refine (proj1 (@plain_node_update_frames
                   reference_utils (sample_runtime exhausted)
                   (ask_stream None) "run" "chat_model"
                   (Dict [("messages", List_ [ai ANSWER])]) true
                   (List_ [ai ANSWER]) [ai ANSWER]
                   eq_refl eq_refl eq_refl eq_refl _)).
  repeat constructor.
Defined.



Lemma simplified_update_keeps_plain_values_witness :
  lookup "store"
         (_simplify_node_updates
            (Dict [("step", Int 3); ("store", Object "InMemoryStore" 0)]))
  = Some (Str "[Complex data: InMemoryStore]").
Proof.
  refine (simplified_update_keeps_plain_values
            [("step", Int 3); ("store", Object "InMemoryStore" 0)]
            "store" (Object "InMemoryStore" 0) _ _ eq_refl).
  - repeat constructor; cbn; intuition discriminate.
  - discriminate.
Defined.


Lemma message_content_joins_text_parts_witness :
  _get_message_content
    (Message AIMessage (Parts ([Str "The weather"] ++ Int 70 :: [Str "degrees"]))
             None None)
  = _get_message_content
      (Message AIMessage (Parts ([Str "The weather"] ++ [Str "degrees"]))
               None None).
Proof.
  apply (proj1 (proj2 (message_content_joins_text_parts AIMessage None None))).
  reflexivity.
Defined.


Lemma last_content_fragment_wins_witness :
  attr_content (ai "The weather in Tokyo") = Ok (Str "The weather in Tokyo").
Proof.
  apply (@last_content_fragment_wins
           (sample_runtime exhausted)
           [Tuple [Str "content"; Str "The weather"]]
           (Str "The weather in Tokyo") (ai "The weather in Tokyo"));
    reflexivity.
Defined.


Lemma listed_agents_are_the_served_ones_witness :
  @get_agent (mock_runtime (mock_agent (Ok values_run) exhausted))
             "no-such-agent"
  = Raise KeyError.
Proof.
  apply (proj2 (proj2 (@listed_agents_are_the_served_ones
                         (mock_runtime (mock_agent (Ok values_run) exhausted))
                         sample_registry "no-such-agent" eq_refl))).
  cbn. intros [H | []]. discriminate.
Defined.

Lemma bearer_check_decides_witness :
  @verify_bearer (sample_settings (Some "s3cret")) (Some (bearer "s3cret"))
  = Ok tt.
Proof.
  apply (proj1 (@bearer_check_decides (sample_settings (Some "s3cret"))
                                      (Some (bearer "s3cret")))).
  right. exists (bearer "s3cret"). split; reflexivity.
Defined.

Lemma unauthenticated_request_reaches_only_health_witness :
  @service_app reference_utils
               (mock_runtime (mock_agent (Ok values_run) exhausted))
               (sample_settings (Some "s3cret")) (sample_environ true)
               sample_telemetry (sample_checkpoints (Ok stored_exchange))
               sample_registry (Some (bearer "guess"))
               (POST_history "thread-1")
  = ([], Raise unauthorized).
Proof.
  apply (@unauthenticated_request_reaches_only_health
           reference_utils (sample_settings (Some "s3cret"))
           (sample_environ true) sample_telemetry
           (sample_checkpoints (Ok stored_exchange))
           (mock_runtime (mock_agent (Ok values_run) exhausted))
           sample_registry (Some (bearer "guess")) "s3cret"
           (POST_history "thread-1")).
  - reflexivity.
  - discriminate.
  - intros auth [= <-]. discriminate.
Defined.

Lemma history_is_all_or_nothing_witness :
  fst (@history reference_utils
                (mock_runtime (mock_agent (Ok values_run) exhausted))
                (sample_checkpoints (Ok stored_exchange)) "thread-1")
  = [get_state_call [("thread_id", Str "thread-1")]].
Proof.
  apply (proj1 (@history_is_all_or_nothing
                  reference_utils (sample_checkpoints (Ok stored_exchange))
                  (mock_runtime (mock_agent (Ok values_run) exhausted))
                  "thread-1" (mock_agent (Ok values_run) exhausted) eq_refl)).
Defined.

Lemma feedback_without_credentials_witness :
  @feedback (sample_settings None) (sample_environ false) sample_telemetry
            sample_feedback
  = ([], Raise (HTTPException 500
                  (detail_text "Error recording feedback: 500: Langfuse credentials not found"))).
Proof.
  apply (@feedback_without_credentials
           (sample_settings None) (sample_environ false) sample_telemetry
           sample_feedback).
  reflexivity.
Defined.

Lemma feedback_scores_the_run_witness :
  exists s,
    In (score_call s)
       (fst (@feedback (sample_settings None) (sample_environ true)
                       sample_telemetry sample_feedback))
    /\ trace_id s = "847c6285-8fc9-4560-a83f-4e6285809254".
Proof.
  destruct (proj1 (proj2 (@feedback_scores_the_run
                            (sample_settings None) (sample_environ true)
                            sample_telemetry sample_feedback))
                  (FeedbackResponse "success") eq_refl)
    as (_ & pk & sk & host & s & Hcalls & _ & _ & _ & _ & _ & Htrace & _).
  exists s. split; [| exact Htrace].
  rewrite Hcalls. right. now left.
Defined.
